(** * Input monitor of the MIMIKI launcher

    A shallow embedding of [system/launcher/src/input_monitor.c]:
    device discovery ([find_device_by_name], [input_monitor_init]) and the
    per-tick poll ([input_monitor_check_hotkeys]) that turns raw evdev
    events into suspend, volume, backlight and shutdown decisions.

    The file-scope statics of the C file become the record [monitor]; the
    operating system (monotonic clock, event queues behind the descriptors,
    shell commands run with [system], the /dev/input directory) becomes an
    explicit environment that every operation threads through. *)

From Stdlib Require Import ZArith List Bool String Ascii Lia.
Import ListNotations.
Local Open Scope Z_scope.

(** ** Constants *)

Definition MAX_INPUT_DEVICES : Z := 3.
Definition WAKE_DEBOUNCE_MS : Z := 500.

(** The long-press threshold is the literal [1750] of the source. *)
Definition LONG_PRESS_MS : Z := 1750.

(** Event classes and codes of <linux/input-event-codes.h>. *)
Definition EV_KEY : Z := 1.
Definition EV_SW : Z := 5.
Definition SW_LID : Z := 0.
Definition KEY_VOLUMEDOWN : Z := 114.
Definition KEY_VOLUMEUP : Z := 115.
Definition KEY_POWER : Z := 116.
Definition BTN_MODE : Z := 316.          (* 0x13c *)

(** [errno] value of a read that would block. *)
Definition EAGAIN : Z := 11.

(** ** Data *)

(** [struct timespec]. *)
Record timespec : Type := mkTimespec { tv_sec : Z; tv_nsec : Z }.

(** [struct input_event]; its [time] member is never read by the monitor. *)
Record input_event : Type := mkEvent { ev_type : Z; ev_code : Z; ev_value : Z }.

(** The static variables of input_monitor.c. *)
Record monitor : Type := mkMonitor {
  input_fds : list Z;
  num_devices : Z;
  power_press_time : timespec;
  last_wake_time : timespec;
  power_button_held : bool;
  mode_button_held : bool;
  current_brightness : Z
}.

(** The initialisers of the statics. *)
Definition initial_monitor : monitor :=
  mkMonitor [-1; -1; -1] 0 (mkTimespec 0 0) (mkTimespec 0 0) false false 52.

Definition set_power_press_time (t : timespec) (s : monitor) : monitor :=
  mkMonitor (input_fds s) (num_devices s) t (last_wake_time s)
            (power_button_held s) (mode_button_held s) (current_brightness s).

Definition set_last_wake_time (t : timespec) (s : monitor) : monitor :=
  mkMonitor (input_fds s) (num_devices s) (power_press_time s) t
            (power_button_held s) (mode_button_held s) (current_brightness s).

Definition set_power_button_held (b : bool) (s : monitor) : monitor :=
  mkMonitor (input_fds s) (num_devices s) (power_press_time s) (last_wake_time s)
            b (mode_button_held s) (current_brightness s).

Definition set_mode_button_held (b : bool) (s : monitor) : monitor :=
  mkMonitor (input_fds s) (num_devices s) (power_press_time s) (last_wake_time s)
            (power_button_held s) b (current_brightness s).

Definition set_current_brightness (v : Z) (s : monitor) : monitor :=
  mkMonitor (input_fds s) (num_devices s) (power_press_time s) (last_wake_time s)
            (power_button_held s) (mode_button_held s) v.

Definition set_devices (fds : list Z) (n : Z) (s : monitor) : monitor :=
  mkMonitor fds n (power_press_time s) (last_wake_time s)
            (power_button_held s) (mode_button_held s) (current_brightness s).

(** ** The environment of the poll *)

(** Result of one [read(fd, &ev, sizeof(ev))]: a whole event, or a failure
    with its [errno] (anything that is not [sizeof(ev)] ends the loop). *)
Inductive read_result : Type :=
| ReadEvent (ev : input_event)
| ReadErr (errno : Z).

(** Shell commands handed to [system]:
    - [Suspend]        "echo mem > /sys/power/state"
    - [SetBacklight v] "echo v > /sys/class/backlight/backlight/brightness"
    - [VolumeUp]       "amixer -q -c 0 sset 'Master' 5%+"
    - [VolumeDown]     "amixer -q -c 0 sset 'Master' 5%-" *)
Inductive command : Type :=
| Suspend
| SetBacklight (raw : Z)
| VolumeUp
| VolumeDown.

(** - [clock k] is what the k-th call of [clock_gettime(CLOCK_MONOTONIC)]
      returns, [clock_reads] counts the calls made so far;
    - [pending fd] lists what the coming [read]s on [fd] return, oldest
      first; once it is exhausted every read would block;
    - [backlight_on] is the [extern bool] of shared.h;
    - [commands] is the log of [system] calls, oldest first. *)
Record world : Type := mkWorld {
  clock : nat -> timespec;
  clock_reads : nat;
  pending : Z -> list read_result;
  backlight_on : bool;
  commands : list command
}.

Definition clock_gettime (w : world) : timespec * world :=
  (clock w (clock_reads w),
   mkWorld (clock w) (S (clock_reads w)) (pending w) (backlight_on w) (commands w)).

Definition system (c : command) (w : world) : world :=
  mkWorld (clock w) (clock_reads w) (pending w) (backlight_on w) (commands w ++ [c]).

Definition set_pending (fd : Z) (q : list read_result) (w : world) : world :=
  mkWorld (clock w) (clock_reads w)
          (fun fd' => if fd' =? fd then q else pending w fd')
          (backlight_on w) (commands w).

(** [read] pops the head of the descriptor's queue. *)
Definition read (fd : Z) (w : world) : read_result * world :=
  match pending w fd with
  | [] => (ReadErr EAGAIN, w)
  | r :: q => (r, set_pending fd q w)
  end.

(** ** The poll *)

(** [(a.tv_sec - b.tv_sec) * 1000 + (a.tv_nsec - b.tv_nsec) / 1000000]
    in C's [long] arithmetic: the division truncates towards zero. *)
Definition elapsed_ms (a b : timespec) : Z :=
  (tv_sec a - tv_sec b) * 1000 + Z.quot (tv_nsec a - tv_nsec b) 1000000.

(** The value written to the backlight: [(int)(level * 255 / 100)]. *)
Definition backlight_raw (level : Z) : Z := Z.quot (level * 255) 100.

(** How the body of the [while] loop is left: [Next] stands for reaching
    the end of the body, [break] out of the [switch] and [continue];
    [Return b] for [return b] out of the whole function. *)
Inductive flow : Type :=
| Next (s : monitor) (w : world)
| Return (b : bool) (s : monitor) (w : world).

(** [case KEY_POWER]. *)
Definition on_power (ev : input_event) (s : monitor) (w : world) : flow :=
  if (ev_value ev =? 1) && negb (power_button_held s) then
    let '(t, w1) := clock_gettime w in
    Next (set_power_button_held true (set_power_press_time t s)) w1
  else if (ev_value ev =? 0) && power_button_held s then
    let '(now, w1) := clock_gettime w in
    let held_ms := elapsed_ms now (power_press_time s) in
    let s1 := set_power_button_held false s in
    if held_ms >=? LONG_PRESS_MS then Return true s1 w1
    else
      let last_wake_ms := elapsed_ms now (last_wake_time s1) in
      if last_wake_ms <? WAKE_DEBOUNCE_MS then Next s1 w1
      else
        let w2 := system Suspend w1 in
        let '(t, w3) := clock_gettime w2 in
        Next (set_last_wake_time t s1) w3
  else Next s w.

(** [case KEY_VOLUMEUP]. *)
Definition on_volume_up (ev : input_event) (s : monitor) (w : world) : flow :=
  if negb (ev_value ev =? 1) then Next s w
  else if mode_button_held s && backlight_on w then
    if current_brightness s <? 100 then
      let s1 := set_current_brightness (current_brightness s + 16) s in
      Next s1 (system (SetBacklight (backlight_raw (current_brightness s1))) w)
    else Next s w
  else Next s (system VolumeUp w).

(** [case KEY_VOLUMEDOWN]. *)
Definition on_volume_down (ev : input_event) (s : monitor) (w : world) : flow :=
  if negb (ev_value ev =? 1) then Next s w
  else if mode_button_held s && backlight_on w then
    if current_brightness s >? 4 then
      let s1 := set_current_brightness (current_brightness s - 16) s in
      Next s1 (system (SetBacklight (backlight_raw (current_brightness s1))) w)
    else Next s w
  else Next s (system VolumeDown w).

(** [case SW_LID]. *)
Definition on_lid (ev : input_event) (s : monitor) (w : world) : flow :=
  if ev_value ev =? 1 then
    let w1 := system Suspend w in
    let '(t, w2) := clock_gettime w1 in
    Next (set_last_wake_time t s) w2
  else Next s w.

(** The body of the [while] loop for one event that was read: the class
    filter, then the [switch] on [ev.code] alone. *)
Definition handle_event (ev : input_event) (s : monitor) (w : world) : flow :=
  if negb (ev_type ev =? EV_KEY) && negb (ev_type ev =? EV_SW) then Next s w
  else if ev_code ev =? BTN_MODE then
    Next (set_mode_button_held ((ev_value ev =? 1) || (ev_value ev =? 2)) s) w
  else if ev_code ev =? KEY_POWER then on_power ev s w
  else if ev_code ev =? KEY_VOLUMEUP then on_volume_up ev s w
  else if ev_code ev =? KEY_VOLUMEDOWN then on_volume_down ev s w
  else if ev_code ev =? SW_LID then on_lid ev s w
  else Next s w.

(** [while (read(fd, &ev, sizeof(ev)) == sizeof(ev)) { ... }], with [q] the
    queue of [fd]: each iteration pops one read result; the first result that
    is not a whole event (or an empty queue) ends the loop. *)
Fixpoint drain (fd : Z) (q : list read_result) (s : monitor) (w : world) : flow :=
  match q with
  | [] => Next s w
  | ReadErr _ :: q' => Next s (set_pending fd q' w)
  | ReadEvent ev :: q' =>
      match handle_event ev s (set_pending fd q' w) with
      | Next s' w' => drain fd q' s' w'
      | Return b s' w' => Return b s' w'
      end
  end.

(** [for (int i = 0; i < num_devices; i++)], over the indices still to
    visit. A slot outside the array reads as closed. *)
Fixpoint poll_devices (idx : list nat) (s : monitor) (w : world) : flow :=
  match idx with
  | [] => Next s w
  | i :: rest =>
      let fd := nth i (input_fds s) (-1) in
      if fd <? 0 then poll_devices rest s w
      else
        match drain fd (pending w fd) s w with
        | Next s' w' => poll_devices rest s' w'
        | Return b s' w' => Return b s' w'
        end
  end.

Definition device_indices (s : monitor) : list nat :=
  seq 0 (Z.to_nat (num_devices s)).

(** [input_monitor_check_hotkeys]: the value returned, the statics and the
    environment afterwards. *)
Definition input_monitor_check_hotkeys (s : monitor) (w : world)
  : bool * monitor * world :=
  match poll_devices (device_indices s) s w with
  | Return b s' w' => (b, s', w')
  | Next s' w' =>
      if power_button_held s' then
        let '(now, w1) := clock_gettime w' in
        let held_ms := elapsed_ms now (power_press_time s') in
        if held_ms >=? LONG_PRESS_MS then (true, s', w1) else (false, s', w1)
      else (false, s', w')
  end.

(** [input_monitor_cleanup]; closing the descriptors is the environment's
    business, here only the statics matter. *)
Definition input_monitor_cleanup (s : monitor) : monitor :=
  let n := Z.to_nat (num_devices s) in
  let fds := map (fun '(i, fd) => if (i <? n)%nat && (0 <=? fd) then -1 else fd)
                 (combine (seq 0 (List.length (input_fds s))) (input_fds s)) in
  set_mode_button_held false
    (set_power_button_held false (set_devices fds 0 s)).

(** ** The environment of the discovery *)

(** One entry of /dev/input as [readdir] yields it, with what the calls
    made on it answer:
    - [d_open]: the descriptor [open(path, O_RDONLY | O_NONBLOCK)] returns,
      [None] when it fails;
    - [d_evname]: the name [ioctl(fd, EVIOCGNAME(256), name)] stores (taken
      to fit the buffer with its terminator), [None] when the ioctl fails
      and the buffer keeps its initialiser. *)
Record dirent : Type := mkDirent {
  d_name : string;
  d_open : option nat;
  d_evname : option string
}.

(** Lines written to stdout and stderr:
    - [FoundDevice path name] "Found input device: %s (%s)"
    - [WarnNotFound name]     "Warning: Could not find device '%s'"
    - [FailedAny]             "Failed to open any input devices"
    - [Monitoring n]          "Monitoring %d input device(s)" *)
Inductive log_line : Type :=
| FoundDevice (path name : string)
| WarnNotFound (name : string)
| FailedAny
| Monitoring (n : Z).

(** - [scans] lists what the coming [opendir("/dev/input")] calls see,
      oldest first: [None] when the call fails, else the descriptor behind
      the [DIR] and the entries in [readdir] order; when the list is
      exhausted [opendir] fails;
    - [open_fds] are the descriptors the process holds open, most recent
      first;
    - [output] are the lines printed, oldest first. *)
Record devfs : Type := mkDevfs {
  scans : list (option (nat * list dirent));
  open_fds : list Z;
  output : list log_line
}.

Definition print (l : log_line) (d : devfs) : devfs :=
  mkDevfs (scans d) (open_fds d) (output d ++ [l]).

Definition fd_opened (fd : Z) (d : devfs) : devfs :=
  mkDevfs (scans d) (fd :: open_fds d) (output d).

Fixpoint remove_first (fd : Z) (l : list Z) : list Z :=
  match l with
  | [] => []
  | x :: l' => if x =? fd then l' else x :: remove_first fd l'
  end.

(** [close] and [closedir]. *)
Definition fd_closed (fd : Z) (d : devfs) : devfs :=
  mkDevfs (scans d) (remove_first fd (open_fds d)) (output d).

(** [strstr(hay, needle) != NULL]. *)
Fixpoint strstr (hay needle : string) : bool :=
  String.prefix needle hay ||
  match hay with
  | EmptyString => false
  | String _ hay' => strstr hay' needle
  end.

(** The [name] buffer after the ioctl. *)
Definition reported_name (e : dirent) : string :=
  match d_evname e with
  | Some n => n
  | None => "Unknown"%string
  end.

(** The [readdir] loop of [find_device_by_name], [dfd] being the descriptor
    of the open directory. *)
Fixpoint scan_entries (device_name : string) (dfd : Z) (es : list dirent)
         (d : devfs) : Z * devfs :=
  match es with
  | [] => (-1, fd_closed dfd d)
  | e :: es' =>
      if negb (String.prefix "event" (d_name e)) then
        scan_entries device_name dfd es' d
      else
        match d_open e with
        | None => scan_entries device_name dfd es' d
        | Some n =>
            let fd := Z.of_nat n in
            let d1 := fd_opened fd d in
            if strstr (reported_name e) device_name then
              (fd, fd_closed dfd
                     (print (FoundDevice ("/dev/input/" ++ d_name e)
                                         (reported_name e)) d1))
            else scan_entries device_name dfd es' (fd_closed fd d1)
        end
  end.

Definition find_device_by_name (device_name : string) (d : devfs) : Z * devfs :=
  match scans d with
  | [] => (-1, d)
  | None :: rest => (-1, mkDevfs rest (open_fds d) (output d))
  | Some (dfd, es) :: rest =>
      scan_entries device_name (Z.of_nat dfd) es
        (mkDevfs rest (Z.of_nat dfd :: open_fds d) (output d))
  end.

Definition device_names : list string :=
  ["joypad"; "pwrkey"; "gpio-keys"]%string.

(** [input_fds[n] = fd]; the guard of the caller keeps [n] inside the
    array, outside it the model leaves the array alone. *)
Fixpoint store (n : nat) (fd : Z) (fds : list Z) : list Z :=
  match fds, n with
  | [], _ => []
  | _ :: l, O => fd :: l
  | x :: l, S n' => x :: store n' fd l
  end.

(** The [for] loop of [input_monitor_init] over the names still to try. *)
Fixpoint init_loop (names : list string) (s : monitor) (d : devfs)
  : monitor * devfs :=
  match names with
  | [] => (s, d)
  | nm :: rest =>
      let '(fd, d1) := find_device_by_name nm d in
      if (fd >=? 0) && (num_devices s <? MAX_INPUT_DEVICES) then
        init_loop rest
          (set_devices (store (Z.to_nat (num_devices s)) fd (input_fds s))
                       (num_devices s + 1) s)
          d1
      else init_loop rest s (print (WarnNotFound nm) d1)
  end.

Definition input_monitor_init (s : monitor) (d : devfs) : bool * monitor * devfs :=
  let '(s1, d1) := init_loop device_names (set_devices (input_fds s) 0 s) d in
  if num_devices s1 =? 0 then (false, s1, print FailedAny d1)
  else (true, s1, print (Monitoring (num_devices s1)) d1).

(** ** Vocabulary of the statements *)

(** Events as the kernel delivers them. *)
Definition key_event (code value : Z) : input_event := mkEvent EV_KEY code value.
Definition lid_event (value : Z) : input_event := mkEvent EV_SW SW_LID value.

(** The reading the next [clock_gettime] returns. *)
Definition now (w : world) : timespec := clock w (clock_reads w).

(** A timestamp of [n] milliseconds, for examples. *)
Definition at_ms (n : Z) : timespec :=
  mkTimespec (n / 1000) ((n mod 1000) * 1000000).

Ltac unfold_handlers :=
  unfold handle_event, on_power, on_volume_up, on_volume_down, on_lid,
    key_event, lid_event, clock_gettime, system.

Ltac split_ifs :=
  repeat match goal with
    | |- context [if ?c then _ else _] => destruct c eqn:?
    end.

(** What no event ever touches: the descriptor table of the monitor, the
    queues, the clock itself and the backlight flag. *)
Definition frame_ok (s : monitor) (w : world) (s' : monitor) (w' : world) : Prop :=
  input_fds s' = input_fds s /\ num_devices s' = num_devices s /\
  pending w' = pending w /\ clock w' = clock w /\
  backlight_on w' = backlight_on w.

Definition flow_frame (s : monitor) (w : world) (f : flow) : Prop :=
  match f with
  | Next s' w' => frame_ok s w s' w'
  | Return b s' w' => b = true /\ frame_ok s w s' w'
  end.


(** The world after one [clock_gettime]. *)
Definition tick_clock (w : world) : world := snd (clock_gettime w).

(** What the release of a held power button does, as one expression. *)
Definition release_outcome (s : monitor) (w : world) : flow :=
  let s1 := set_power_button_held false s in
  if elapsed_ms (now w) (power_press_time s) >=? LONG_PRESS_MS then
    Return true s1 (tick_clock w)
  else if elapsed_ms (now w) (last_wake_time s) <? WAKE_DEBOUNCE_MS then
    Next s1 (tick_clock w)
  else
    Next (set_last_wake_time (now (system Suspend (tick_clock w))) s1)
         (tick_clock (system Suspend (tick_clock w))).

(** ** Concrete environments for the examples *)

(** A clock whose successive readings are the given millisecond values (the
    last one repeats). *)
Definition clock_of (readings : list Z) : nat -> timespec :=
  fun k => at_ms (nth k readings (last readings 0)).

(** Queues given as an association list from descriptor to script. *)
Fixpoint queues_of (l : list (Z * list read_result)) (fd : Z) : list read_result :=
  match l with
  | [] => []
  | (fd', q) :: l' => if fd =? fd' then q else queues_of l' fd
  end.

Definition world_of (readings : list Z) (queues : list (Z * list read_result))
           (backlight : bool) : world :=
  mkWorld (clock_of readings) 0 (queues_of queues) backlight [].

(** The monitor after a discovery that found all three devices on
    descriptors 3, 4 and 5. *)
Definition monitoring : monitor :=
  mkMonitor [3; 4; 5] 3 (mkTimespec 0 0) (mkTimespec 0 0) false false 52.

(** The same with the power button held since the reading [t]. *)
Definition power_held_since (t : timespec) : monitor :=
  set_power_button_held true (set_power_press_time t monitoring).

(** No polled descriptor has anything to deliver: every [read] of the
    tick would block. *)
Definition nothing_queued (idx : list nat) (s : monitor) (w : world) : bool :=
  forallb (fun i =>
             let fd := nth i (input_fds s) (-1) in
             (fd <? 0) || match pending w fd with [] => true | _ => false end)
          idx.

Definition quiet (s : monitor) (w : world) : bool :=
  nothing_queued (device_indices s) s w.

(** The world a flow ends in. *)
Definition flow_world (f : flow) : world :=
  match f with Next _ w | Return _ _ w => w end.

Definition flow_monitor (f : flow) : monitor :=
  match f with Next s _ | Return _ s _ => s end.

(** [errno] of an input/output error, a read failure that is not
    would-block. *)
Definition EIO : Z := 5.

(** What a full run of the [while] loop leaves of a queue: the events up to
    the first failing read are consumed, and so is that read. *)
Fixpoint after_drain (q : list read_result) : list read_result :=
  match q with
  | [] => []
  | ReadErr _ :: q' => q'
  | ReadEvent _ :: q' => after_drain q'
  end.

(** The descriptors the [for] loop reads, in its order. *)
Definition fds_at (idx : list nat) (s : monitor) : list Z :=
  filter (fun fd => 0 <=? fd) (map (fun i => nth i (input_fds s) (-1)) idx).

Definition polled_fds (s : monitor) : list Z := fds_at (device_indices s) s.

(** The seven backlight levels named by the comment on [current_brightness]. *)
Definition brightness_steps : list Z := [4; 20; 36; 52; 68; 84; 100].

(** The brightness a flow ends with. *)
Definition flow_brightness (f : flow) : Z := current_brightness (flow_monitor f).

(** One call into the module from the launcher, with the environment it
    meets; a run is any sequence of such calls. *)
Inductive api_call : Type :=
| CallInit (d : devfs)
| CallCheckHotkeys (w : world)
| CallCleanup.

Definition run_call (s : monitor) (c : api_call) : monitor :=
  match c with
  | CallInit d => snd (fst (input_monitor_init s d))
  | CallCheckHotkeys w => snd (fst (input_monitor_check_hotkeys s w))
  | CallCleanup => input_monitor_cleanup s
  end.

Definition run (calls : list api_call) (s : monitor) : monitor :=
  fold_left run_call calls s.

(** An entry that [find_device_by_name] accepts for [device_name]: an
    "event" node that opens and whose reported name contains the pattern. *)
Definition accepts (device_name : string) (e : dirent) : bool :=
  String.prefix "event" (d_name e)
  && match d_open e with Some _ => true | None => false end
  && strstr (reported_name e) device_name.

(** A role resolves against what its [opendir] sees when some entry is
    accepted. *)
Definition resolves (device_name : string) (snap : option (nat * list dirent)) : bool :=
  match snap with
  | Some (_, es) => existsb (accepts device_name) es
  | None => false
  end.

(** Role by role, in the order of [device_names]: did it resolve? Each role
    meets the next [opendir] of the environment. *)
Fixpoint resolved_roles (names : list string)
         (snaps : list (option (nat * list dirent))) : list bool :=
  match names with
  | [] => []
  | nm :: rest => resolves nm (hd None snaps) :: resolved_roles rest (tl snaps)
  end.

Fixpoint unresolved_names (names : list string)
         (snaps : list (option (nat * list dirent))) : list string :=
  match names with
  | [] => []
  | nm :: rest =>
      if resolves nm (hd None snaps) then unresolved_names rest (tl snaps)
      else nm :: unresolved_names rest (tl snaps)
  end.

(** The device names of the warnings among printed lines. *)
Definition warnings (out : list log_line) : list string :=
  flat_map (fun l => match l with WarnNotFound n => [n] | _ => [] end) out.

(** How many roles resolved. *)
Definition resolved_count (names : list string)
           (snaps : list (option (nat * list dirent))) : Z :=
  Z.of_nat (List.length (filter (fun b : bool => b) (resolved_roles names snaps))).

(** A timestamp in nanoseconds, and the normal form [clock_gettime]
    returns. *)
Definition nanoseconds (t : timespec) : Z := tv_sec t * 1000000000 + tv_nsec t.

Definition normalized (t : timespec) : Prop := 0 <= tv_nsec t < 1000000000.

(** A /dev/input as three successive [opendir] calls may see it: a mouse
    node, the power key, a node that does not open, and the GPIO keys. The
    descriptors handed out differ from scan to scan because descriptor 8 is
    kept once the power key is found. *)
Definition example_dir (dfd fd : nat) : option (nat * list dirent) :=
  Some (dfd,
        [mkDirent "mouse0" (Some fd) (Some "mouse"%string);
         mkDirent "event0" (Some fd) (Some "rk805 pwrkey"%string);
         mkDirent "event1" None None;
         mkDirent "event2" (Some fd) (Some "gpio-keys"%string)]%string).

Definition example_devfs : devfs :=
  mkDevfs [example_dir 3 4; example_dir 3 8; example_dir 3 9] [0; 1; 2] [].

(** A /dev/input without any input node of interest, and a failing
    [opendir]. *)
Definition barren_devfs : devfs :=
  mkDevfs [Some (3%nat, [mkDirent "event0" (Some 4%nat) (Some "touchscreen"%string);
                         mkDirent "event1" (Some 4%nat) None]%string);
           None;
           Some (3%nat, [mkDirent "js0" (Some 4%nat) (Some "joypad"%string)]%string)]
          [0; 1; 2] [].

From Stdlib Require Import Permutation.

(** ** Vocabulary of the further properties *)

(** What holds of a flow, given what holds when the loop goes on ([I]) and
    when the function returns early ([R]). *)
Definition flow_inv (I R : monitor -> world -> Prop) (f : flow) : Prop :=
  match f with
  | Next s w => I s w
  | Return _ s w => R s w
  end.

(** Every event queued on a descriptor the loop over [idx] reads satisfies
    [ok]. *)
Definition queued_events_ok (ok : input_event -> Prop) (idx : list nat)
           (s : monitor) (w : world) : Prop :=
  forall fd ev,
    In fd (fds_at idx s) -> In (ReadEvent ev) (pending w fd) -> ok ev.

(** An event passes the class filter of the loop. *)
Definition class_ok (ev : input_event) : bool :=
  (ev_type ev =? EV_KEY) || (ev_type ev =? EV_SW).

(** Events the [switch] has no use for, whatever the statics are: another
    event class, a code without a [case], a volume or lid event whose value
    is not 1, a power event that is neither press nor release. *)
Definition inert (ev : input_event) : bool :=
  if negb (class_ok ev) then true
  else if ev_code ev =? BTN_MODE then false
  else if ev_code ev =? KEY_POWER then
    negb (ev_value ev =? 1) && negb (ev_value ev =? 0)
  else if (ev_code ev =? KEY_VOLUMEUP) || (ev_code ev =? KEY_VOLUMEDOWN)
          || (ev_code ev =? SW_LID) then
    negb (ev_value ev =? 1)
  else true.

(** The value the end-of-tick check returns in the statics [s] when the
    clock reads [t]. *)
Definition long_hold (s : monitor) (t : timespec) : bool :=
  power_button_held s && (elapsed_ms t (power_press_time s) >=? LONG_PRESS_MS).

(** The raw values the seven levels are written as. *)
Definition backlight_raw_steps : list Z := map backlight_raw brightness_steps.

Definition is_backlight (c : command) : bool :=
  match c with SetBacklight _ => true | _ => false end.

(** The events a full run of the [while] loop reads from a queue: those in
    front of the first failing read. *)
Fixpoint events_read (q : list read_result) : list input_event :=
  match q with
  | ReadEvent ev :: q' => ev :: events_read q'
  | _ => []
  end.

(** The events a tick reads, in the order of the [for] loop. *)
Definition tick_events (idx : list nat) (s : monitor) (w : world) : list input_event :=
  flat_map (fun fd => events_read (pending w fd)) (fds_at idx s).

(** The level of the mode button after one more event: press and repeat
    mean held, any other value of a mode event means released. *)
Definition mode_level (held : bool) (ev : input_event) : bool :=
  if class_ok ev && (ev_code ev =? BTN_MODE)
  then (ev_value ev =? 1) || (ev_value ev =? 2)
  else held.

(** The level of the power button after one more event: press means held,
    release means released, other values of a power event are ignored. *)
Definition power_level (held : bool) (ev : input_event) : bool :=
  if class_ok ev && (ev_code ev =? KEY_POWER) then
    if ev_value ev =? 1 then true
    else if ev_value ev =? 0 then false
    else held
  else held.

(** The reading taken [k] calls of [clock_gettime] from now. *)
Definition reading (w : world) (k : nat) : timespec :=
  clock w (k + clock_reads w)%nat.

(** A queue holding exactly these events. *)
Definition queue_of (evs : list input_event) : list read_result :=
  map ReadEvent evs.

(** The [close] calls of [input_monitor_cleanup]: the first [n] slots in
    order, those that hold a descriptor. *)
Fixpoint close_slots (n : nat) (fds : list Z) (d : devfs) : devfs :=
  match n, fds with
  | S n', fd :: rest =>
      close_slots n' rest (if fd >=? 0 then fd_closed fd d else d)
  | _, _ => d
  end.

(** What [input_monitor_cleanup] does to the environment. *)
Definition input_monitor_cleanup_env (s : monitor) (d : devfs) : devfs :=
  close_slots (Z.to_nat (num_devices s)) (input_fds s) d.

(** The descriptors the monitor holds: the first [num_devices] slots. *)
Definition held_fds (s : monitor) : list Z :=
  firstn (Z.to_nat (num_devices s)) (input_fds s).

(** The statics after a sequence of polls, each in its own environment. *)
Definition poll_all (ws : list world) (s : monitor) : monitor :=
  fold_left (fun s1 w => snd (fst (input_monitor_check_hotkeys s1 w))) ws s.

(** * The launcher menu

    The navigation state of [system/launcher/src/main.c]: which system and
    which game are selected, and whether the game list is shown. Rendering is
    kept as the sequence of [draw_text] calls it makes. *)

Definition MAX_SYSTEMS : Z := 4.
Definition MAX_GAMES : Z := 256.

(** Event types and controller buttons of SDL2 (SDL_events.h,
    SDL_gamecontroller.h). *)
Definition SDL_QUIT : Z := 256.                          (* 0x100 *)
Definition SDL_CONTROLLERBUTTONDOWN : Z := 1617.         (* 0x651 *)
Definition SDL_CONTROLLER_BUTTON_A : Z := 0.
Definition SDL_CONTROLLER_BUTTON_B : Z := 1.
Definition SDL_CONTROLLER_BUTTON_DPAD_UP : Z := 11.
Definition SDL_CONTROLLER_BUTTON_DPAD_DOWN : Z := 12.

(** What [handle_input] reads of an [SDL_Event]. *)
Record sdl_event : Type := mkSdlEvent { sdl_type : Z; sdl_button : Z }.

(** The statics [current_system], [current_game] and [in_game_list]. *)
Record menu : Type := mkMenu {
  current_system : Z;
  current_game : Z;
  in_game_list : bool
}.

Definition initial_menu : menu := mkMenu 0 0 false.

(** [systems[system].game_count], the counts being what [scan_games] left
    in the table. *)
Definition game_count (counts : list Z) (system : Z) : Z :=
  nth (Z.to_nat system) counts 0.

(** How one call of [handle_input] ends: it returns, having possibly called
    [launch_game] on [systems[sys]] and its game of index [game], or the
    process is gone through [exit(0)]. *)
Inductive input_result : Type :=
| Handled (m : menu) (launched : option (Z * Z))
| Exited.

Definition handle_input (counts : list Z) (ev : sdl_event) (m : menu)
  : input_result :=
  if sdl_type ev =? SDL_QUIT then Exited
  else if sdl_type ev =? SDL_CONTROLLERBUTTONDOWN then
    if sdl_button ev =? SDL_CONTROLLER_BUTTON_DPAD_UP then
      if in_game_list m then
        if current_game m >? 0
        then Handled (mkMenu (current_system m) (current_game m - 1) true) None
        else Handled m None
      else
        if current_system m >? 0
        then Handled (mkMenu (current_system m - 1) (current_game m) false) None
        else Handled m None
    else if sdl_button ev =? SDL_CONTROLLER_BUTTON_DPAD_DOWN then
      if in_game_list m then
        if current_game m <? game_count counts (current_system m) - 1
        then Handled (mkMenu (current_system m) (current_game m + 1) true) None
        else Handled m None
      else
        if current_system m <? MAX_SYSTEMS - 1
        then Handled (mkMenu (current_system m + 1) (current_game m) false) None
        else Handled m None
    else if sdl_button ev =? SDL_CONTROLLER_BUTTON_A then
      if in_game_list m then
        if game_count counts (current_system m) >? 0
        then Handled m (Some (current_system m, current_game m))
        else Handled m None
      else
        if game_count counts (current_system m) >? 0
        then Handled (mkMenu (current_system m) 0 true) None
        else Handled m None
    else if sdl_button ev =? SDL_CONTROLLER_BUTTON_B then
      if in_game_list m
      then Handled (mkMenu (current_system m) 0 false) None
      else Handled m None
    else Handled m None
  else Handled m None.

(** The events of a run fed to [handle_input] one after the other: the menu
    reached, the games launched on the way (oldest first) and whether the
    process exited. *)
Fixpoint handle_inputs (counts : list Z) (evs : list sdl_event) (m : menu)
  : menu * list (Z * Z) * bool :=
  match evs with
  | [] => (m, [], false)
  | ev :: rest =>
      match handle_input counts ev m with
      | Exited => (m, [], true)
      | Handled m' launched =>
          let '(m'', launches, exited) := handle_inputs counts rest m' in
          (m'', match launched with
                | Some l => l :: launches
                | None => launches
                end, exited)
      end
  end.

(** The selection is inside the tables. *)
Definition menu_ok (counts : list Z) (m : menu) : Prop :=
  0 <= current_system m < MAX_SYSTEMS
  /\ (in_game_list m = true ->
      0 <= current_game m < game_count counts (current_system m))
  /\ (in_game_list m = false -> current_game m = 0).

(** One [draw_text(x, y, text, selected)] call. *)
Record draw : Type := mkDraw {
  draw_x : Z; draw_y : Z; draw_text : string; draw_selected : bool
}.

(** The game-list loop of [render_game_menu]: [fuel] iterations are left
    before [i] reaches [start_idx + games_per_page]; [names] are the names
    of the games of the system. *)
Fixpoint game_rows (fuel : nat) (i y : Z) (count selected : Z)
         (names : list string) : list draw :=
  match fuel with
  | O => []
  | S fuel' =>
      if i <? count then
        (if i =? selected then [mkDraw 80 y ">" true] else [])
        ++ mkDraw 110 y (nth (Z.to_nat i) names ""%string) (i =? selected)
        :: game_rows fuel' (i + 1) (y + 30) count selected names
      else []
  end.

(** [start_idx], the index of the first game of the page shown. *)
Definition page_start (selected : Z) : Z := Z.quot selected 10 * 10.

(** The rows [render_game_menu] draws for the game list. *)
Definition render_game_rows (count selected : Z) (names : list string) : list draw :=
  game_rows 10 (page_start selected) 80 count selected names.

(** [current_page] and [total_pages] of the page indicator, drawn when the
    system has more than one page of games. *)
Definition page_indicator (count selected : Z) : option (Z * Z) :=
  if count >? 10
  then Some (Z.quot selected 10 + 1, Z.quot (count + 10 - 1) 10)
  else None.

(** ** File extensions of the game scanner *)

(** [tolower] in the C locale. *)
Definition tolower (a : ascii) : ascii :=
  let n := nat_of_ascii a in
  if (65 <=? n)%nat && (n <=? 90)%nat then ascii_of_nat (n + 32) else a.

(** [strcasecmp]: the difference of the first lowered bytes that differ. *)
Fixpoint strcasecmp (a b : string) : Z :=
  match a, b with
  | EmptyString, EmptyString => 0
  | EmptyString, String cb _ => - Z.of_nat (nat_of_ascii (tolower cb))
  | String ca _, EmptyString => Z.of_nat (nat_of_ascii (tolower ca))
  | String ca a', String cb b' =>
      if Ascii.eqb (tolower ca) (tolower cb) then strcasecmp a' b'
      else Z.of_nat (nat_of_ascii (tolower ca))
           - Z.of_nat (nat_of_ascii (tolower cb))
  end.

(** [strrchr(s, c)] for a character that is not the terminator: the tail of
    [s] that starts at the last [c], if there is one. *)
Fixpoint strrchr (s : string) (c : ascii) : option string :=
  match s with
  | EmptyString => None
  | String a s' =>
      match strrchr s' c with
      | Some r => Some r
      | None => if Ascii.eqb a c then Some s else None
      end
  end.

(** [has_extension], for a file name and an extension table that are not
    null pointers. *)
Definition has_extension (filename : string) (extensions : list string) : bool :=
  match strrchr filename "." with
  | None => false
  | Some dot => existsb (fun e => strcasecmp dot e =? 0) extensions
  end.

(** A string with every byte lowered. *)
Fixpoint lowered (s : string) : string :=
  match s with
  | EmptyString => EmptyString
  | String a s' => String (tolower a) (lowered s')
  end.

(** The character does not occur in the string. *)
Fixpoint absent (c : ascii) (s : string) : bool :=
  match s with
  | EmptyString => true
  | String a s' => negb (Ascii.eqb a c) && absent c s'
  end.

Definition n64_exts : list string := [".z64"; ".n64"; ".v64"]%string.
(** * Properties of the poll *)

Section Frame.

Lemma handle_event_frame ev s w : flow_frame s w (handle_event ev s w).
Proof.
  unfold_handlers; split_ifs; cbn; unfold frame_ok; cbn; intuition.
Qed.

Lemma handle_event_pending ev s w s' w' :
  handle_event ev s w = Next s' w' -> pending w' = pending w.
Proof.
  intros H. pose proof (handle_event_frame ev s w) as F.
  rewrite H in F. apply F.
Qed.

Lemma handle_event_fds ev s w s' w' :
  handle_event ev s w = Next s' w' ->
  input_fds s' = input_fds s /\ num_devices s' = num_devices s.
Proof.
  intros H. pose proof (handle_event_frame ev s w) as F.
  rewrite H in F. split; apply F.
Qed.

(** The recursion of [drain] follows the queue of the descriptor: one
    iteration is one [read]. *)
Lemma drain_step fd s w :
  drain fd (pending w fd) s w =
  match read fd w with
  | (ReadEvent ev, w1) =>
      match handle_event ev s w1 with
      | Next s' w' => drain fd (pending w' fd) s' w'
      | Return b s' w' => Return b s' w'
      end
  | (ReadErr _, w1) => Next s w1
  end.
Proof.
  unfold read. destruct (pending w fd) as [|[ev|e] q]; cbn; try reflexivity.
  destruct (handle_event ev s (set_pending fd q w)) as [s' w'|b s' w'] eqn:E;
    try reflexivity.
  apply handle_event_pending in E. rewrite E. cbn. now rewrite Z.eqb_refl.
Qed.

Lemma drain_fds fd q s w s' w' :
  drain fd q s w = Next s' w' ->
  input_fds s' = input_fds s /\ num_devices s' = num_devices s.
Proof.
  revert s w. induction q as [|[ev|e] q IH]; cbn; intros s w H.
  - now inversion H.
  - destruct (handle_event ev s (set_pending fd q w)) as [s1 w1|] eqn:E;
      [|discriminate].
    apply handle_event_fds in E. apply IH in H. intuition congruence.
  - now inversion H.
Qed.

Lemma drain_return fd q s w b s' w' :
  drain fd q s w = Return b s' w' ->
  b = true /\ input_fds s' = input_fds s /\ num_devices s' = num_devices s.
Proof.
  revert s w. induction q as [|[ev|e] q IH]; cbn; intros s w H; try discriminate.
  destruct (handle_event ev s (set_pending fd q w)) as [s1 w1|b1 s1 w1] eqn:E.
  - apply handle_event_fds in E. apply IH in H. intuition congruence.
  - inversion H; subst. pose proof (handle_event_frame ev s (set_pending fd q w)) as F.
    rewrite E in F. destruct F as [? [? [? _]]]. auto.
Qed.


Lemma poll_devices_fds idx s w :
  match poll_devices idx s w with
  | Next s' w' => input_fds s' = input_fds s /\ num_devices s' = num_devices s
  | Return b s' w' =>
      b = true /\ input_fds s' = input_fds s /\ num_devices s' = num_devices s
  end.
Proof.
  revert s w. induction idx as [|i idx IH]; cbn; intros s w; [auto|].
  destruct (nth i (input_fds s) (-1) <? 0); [apply IH|].
  destruct (drain _ _ s w) as [s1 w1|b s1 w1] eqn:E.
  - apply drain_fds in E. specialize (IH s1 w1).
    destruct (poll_devices idx s1 w1); intuition congruence.
  - apply drain_return in E. exact E.
Qed.

End Frame.


Section PowerButton.

(** [elapsed_ms] brackets the real distance of two normalized readings: it
    is the distance in milliseconds rounded down when the nanosecond fields
    do not borrow, rounded up when they do. *)
Lemma elapsed_ms_brackets a b k :
  normalized a -> normalized b ->
  (k * 1000000 <= nanoseconds a - nanoseconds b -> k <= elapsed_ms a b)
  /\ (nanoseconds a - nanoseconds b <= k * 1000000 -> elapsed_ms a b <= k).
Proof.
  unfold normalized, nanoseconds, elapsed_ms. intros Ha Hb.
  pose proof (Z.quot_rem' (tv_nsec a - tv_nsec b) 1000000) as Hqr.
  destruct (Z_le_gt_dec 0 (tv_nsec a - tv_nsec b)) as [Hpos|Hneg].
  - pose proof (Z.rem_bound_pos (tv_nsec a - tv_nsec b) 1000000 Hpos ltac:(lia)).
    split; intros; lia.
  - pose proof (Z.rem_bound_pos (- (tv_nsec a - tv_nsec b)) 1000000
                  ltac:(lia) ltac:(lia)) as Hr.
    rewrite Z.rem_opp_l' in Hr. split; intros; lia.
Qed.

(** A hold of at least 1750 ms of real time is long for the code. *)
Corollary real_long_hold_is_long press release :
  normalized press -> normalized release ->
  LONG_PRESS_MS * 1000000 <= nanoseconds release - nanoseconds press ->
  LONG_PRESS_MS <= elapsed_ms release press.
Proof.
  intros Hp Hr. apply (elapsed_ms_brackets release press LONG_PRESS_MS Hr Hp).
Qed.

(** The borrow at work: 1749.000001 ms of real time count as 1750. *)
Example elapsed_ms_rounds_up_on_borrow :
  let a := mkTimespec 2 749000000 in
  let b := mkTimespec 0 999999999 in
  nanoseconds a - nanoseconds b = 1749000001 /\ elapsed_ms a b = 1750.
Proof. split; reflexivity. Qed.

Lemma power_release_outcome s w :
  power_button_held s = true ->
  handle_event (key_event KEY_POWER 0) s w = release_outcome s w.
Proof.
  intros Hheld. unfold release_outcome, tick_clock, now.
  unfold_handlers. cbn. rewrite Hheld. cbn. reflexivity.
Qed.

Lemma power_press_outcome s w :
  power_button_held s = false ->
  handle_event (key_event KEY_POWER 1) s w =
  Next (set_power_button_held true (set_power_press_time (now w) s)) (tick_clock w).
Proof.
  intros Hheld. unfold tick_clock, now.
  unfold_handlers. cbn. rewrite Hheld. cbn. reflexivity.
Qed.


Lemma poll_nothing_queued idx s w :
  nothing_queued idx s w = true -> poll_devices idx s w = Next s w.
Proof.
  induction idx as [|i idx IH]; cbn; intros H; [reflexivity|].
  apply andb_true_iff in H. destruct H as [Hi Hrest].
  destruct (nth i (input_fds s) (-1) <? 0); [auto|].
  cbn in Hi. destruct (pending w (nth i (input_fds s) (-1))); [|discriminate].
  cbn. auto.
Qed.




(** C10: a short press released inside the debounce window only clears
    [power_button_held]; [last_wake_time] and every other static keep their
    value, and no command is run. *)
Theorem debounced_release_only_clears_held s w :
  power_button_held s = true ->
  elapsed_ms (now w) (power_press_time s) < LONG_PRESS_MS ->
  elapsed_ms (now w) (last_wake_time s) < WAKE_DEBOUNCE_MS ->
  exists s',
    handle_event (key_event KEY_POWER 0) s w = Next s' (tick_clock w)
    /\ power_button_held s' = false
    /\ last_wake_time s' = last_wake_time s
    /\ power_press_time s' = power_press_time s
    /\ mode_button_held s' = mode_button_held s
    /\ current_brightness s' = current_brightness s
    /\ input_fds s' = input_fds s
    /\ num_devices s' = num_devices s
    /\ commands (tick_clock w) = commands w.
Proof.
  intros Hheld Hshort Hdeb. exists (set_power_button_held false s).
  rewrite power_release_outcome by assumption. unfold release_outcome.
  destruct (Z.geb_spec (elapsed_ms (now w) (power_press_time s)) LONG_PRESS_MS);
    [lia|].
  apply Z.ltb_lt in Hdeb. rewrite Hdeb. cbn. repeat split; reflexivity.
Qed.

Lemma debounced_release_only_clears_held_witness :
  let s := set_last_wake_time (at_ms 10000) (power_held_since (at_ms 10050)) in
  let w := world_of [10200] [] true in
  power_button_held s = true
  /\ elapsed_ms (now w) (power_press_time s) < LONG_PRESS_MS
  /\ elapsed_ms (now w) (last_wake_time s) < WAKE_DEBOUNCE_MS
  /\ exists s',
       handle_event (key_event KEY_POWER 0) s w = Next s' (tick_clock w)
       /\ power_button_held s' = false
       /\ last_wake_time s' = last_wake_time s
       /\ power_press_time s' = power_press_time s
       /\ mode_button_held s' = mode_button_held s
       /\ current_brightness s' = current_brightness s
       /\ input_fds s' = input_fds s
       /\ num_devices s' = num_devices s
       /\ commands (tick_clock w) = commands w.
Proof.
  cbv zeta. split; [reflexivity|]. split; [reflexivity|]. split; [reflexivity|].
  apply debounced_release_only_clears_held; reflexivity.
Defined.

(** C2, as the code has it. The two durations are the whole milliseconds
    [elapsed_ms] computes from the clock readings. The release of a power
    button held for less than 1750 ms, read at least 500 ms after
    [last_wake_time], runs the suspend command exactly once, does not return
    (no Shutdown), clears [power_button_held] and stores in [last_wake_time]
    a fresh reading of the clock, the one taken once the command has come
    back, not the reading the release was timed with; read fewer than 500 ms
    after [last_wake_time], the release is dropped: it runs no command and
    leaves [last_wake_time] alone. *)
Theorem short_press_release_suspends_or_drops s w :
  power_button_held s = true ->
  elapsed_ms (now w) (power_press_time s) < LONG_PRESS_MS ->
  (WAKE_DEBOUNCE_MS <= elapsed_ms (now w) (last_wake_time s) ->
   exists s' w',
     handle_event (key_event KEY_POWER 0) s w = Next s' w'
     /\ commands w' = commands w ++ [Suspend]
     /\ last_wake_time s' = clock w (S (clock_reads w))
     /\ clock_reads w' = S (S (clock_reads w))
     /\ power_button_held s' = false
     /\ power_press_time s' = power_press_time s
     /\ mode_button_held s' = mode_button_held s
     /\ current_brightness s' = current_brightness s
     /\ input_fds s' = input_fds s
     /\ num_devices s' = num_devices s)
  /\ (elapsed_ms (now w) (last_wake_time s) < WAKE_DEBOUNCE_MS ->
      exists s' w',
        handle_event (key_event KEY_POWER 0) s w = Next s' w'
        /\ commands w' = commands w
        /\ last_wake_time s' = last_wake_time s
        /\ clock_reads w' = S (clock_reads w)
        /\ power_button_held s' = false).
Proof.
  intros Hheld Hshort.
  rewrite power_release_outcome by assumption. unfold release_outcome.
  destruct (Z.geb_spec (elapsed_ms (now w) (power_press_time s)) LONG_PRESS_MS);
    [lia|].
  split; intros Hdeb.
  - destruct (Z.ltb_spec (elapsed_ms (now w) (last_wake_time s)) WAKE_DEBOUNCE_MS);
      [lia|].
    eexists. eexists. split; [reflexivity|]. repeat split; reflexivity.
  - apply Z.ltb_lt in Hdeb. rewrite Hdeb.
    eexists. eexists. split; [reflexivity|]. repeat split; reflexivity.
Qed.

Lemma short_press_release_suspends_or_drops_witness :
  let s := power_held_since (at_ms 10000) in
  let w := world_of [10200; 10450] [] true in
  power_button_held s = true
  /\ elapsed_ms (now w) (power_press_time s) < LONG_PRESS_MS
  /\ WAKE_DEBOUNCE_MS <= elapsed_ms (now w) (last_wake_time s)
  /\ exists s' w',
       handle_event (key_event KEY_POWER 0) s w = Next s' w'
       /\ commands w' = commands w ++ [Suspend]
       /\ last_wake_time s' = clock w (S (clock_reads w))
       /\ clock_reads w' = S (S (clock_reads w))
       /\ power_button_held s' = false
       /\ power_press_time s' = power_press_time s
       /\ mode_button_held s' = mode_button_held s
       /\ current_brightness s' = current_brightness s
       /\ input_fds s' = input_fds s
       /\ num_devices s' = num_devices s.
Proof.
  cbv zeta. split; [reflexivity|]. split; [reflexivity|].
  split; [vm_compute; discriminate|].
  apply (short_press_release_suspends_or_drops
           (power_held_since (at_ms 10000))
           (world_of [10200; 10450] [] true)); try reflexivity.
  vm_compute; discriminate.
Defined.

(** C2 as stated fails, twice over. First, the timestamp stored is not the
    now of the release: press read at 10.000 s, release read at 10.200 s, no
    suspend before; the suspend command comes back at 10.450 s and that
    reading becomes [last_wake_time]. Second, a hold of less than 1750 ms
    can be taken for a long one: press read at 0.999999999 s, release read
    at 2.749000000 s, 1749.000001 ms later; the nanosecond fields borrow,
    the code computes 1750 and the call returns true without suspending. *)
Lemma short_press_wake_time_and_rounding :
  (let s := power_held_since (at_ms 10000) in
   let w := world_of [10200; 10450] [] true in
   power_button_held s = true
   /\ elapsed_ms (now w) (power_press_time s) = 200
   /\ elapsed_ms (now w) (last_wake_time s) = 10200
   /\ exists s' w',
        handle_event (key_event KEY_POWER 0) s w = Next s' w'
        /\ commands w' = [Suspend]
        /\ now w = at_ms 10200
        /\ last_wake_time s' = at_ms 10450
        /\ last_wake_time s' <> now w)
  /\ (let s := power_held_since (mkTimespec 0 999999999) in
      let w := mkWorld (fun _ => mkTimespec 2 749000000) 0
                       (queues_of [(4, [ReadEvent (key_event KEY_POWER 0)])])
                       true [] in
      power_button_held s = true
      /\ nanoseconds (now w) - nanoseconds (power_press_time s) = 1749000001
      /\ 1749000001 < LONG_PRESS_MS * 1000000
      /\ WAKE_DEBOUNCE_MS <= elapsed_ms (now w) (last_wake_time s)
      /\ let '(b, s', w') := input_monitor_check_hotkeys s w in
         b = true /\ commands w' = [] /\ power_button_held s' = false).
Proof.
  split.
  - cbv zeta. repeat split; try reflexivity.
    eexists. eexists. split; [vm_compute; reflexivity|].
    repeat split; try reflexivity. vm_compute. discriminate.
  - vm_compute. repeat split; try reflexivity. discriminate.
Qed.







(** The long hold is not latched: a tick on which nothing is queued, the
    power button is held and 1750 ms have passed since its press returns
    true and leaves every static as it was. *)
Lemma held_long_quiet_tick s w :
  power_button_held s = true ->
  quiet s w = true ->
  LONG_PRESS_MS <= elapsed_ms (now w) (power_press_time s) ->
  input_monitor_check_hotkeys s w = (true, s, tick_clock w).
Proof.
  intros Hheld Hquiet Hlong. unfold input_monitor_check_hotkeys.
  rewrite (poll_nothing_queued _ _ _ Hquiet), Hheld. cbn.
  apply Z.geb_le in Hlong. unfold now in Hlong. now rewrite Hlong.
Qed.


(** C3 as stated fails: the power button is held since 0 s; the ticks that
    end at 2.000 s and at 2.100 s both return true with the button still
    held, and the tick that reads the release at 2.200 s returns true a
    third time. *)
Lemma shutdown_signalled_three_times :
  let s0 := power_held_since (at_ms 0) in
  let w0 := world_of [2000; 2100; 2200]
              [(4, [ReadErr EAGAIN; ReadErr EAGAIN;
                    ReadEvent (key_event KEY_POWER 0)])] true in
  let '(b1, s1, w1) := input_monitor_check_hotkeys s0 w0 in
  let '(b2, s2, w2) := input_monitor_check_hotkeys s1 w1 in
  let '(b3, s3, w3) := input_monitor_check_hotkeys s2 w2 in
  (b1 = true /\ power_button_held s1 = true /\ power_press_time s1 = at_ms 0)
  /\ (b2 = true /\ power_button_held s2 = true /\ power_press_time s2 = at_ms 0)
  /\ (b3 = true /\ power_button_held s3 = false /\ pending w3 4 = []).
Proof.
  vm_compute. repeat split; reflexivity.
Qed.

End PowerButton.


Section Multiplexer.

Lemma drain_pending fd q s w s' w' :
  drain fd q s w = Next s' w' ->
  pending w fd = q ->
  forall fd', pending w' fd' = if fd' =? fd then after_drain q else pending w fd'.
Proof.
  revert s w. induction q as [|[ev|e] q IH]; cbn [drain after_drain]; intros s w H Hq fd'.
  - inversion H; subst. destruct (Z.eqb_spec fd' fd); congruence.
  - destruct (handle_event ev s (set_pending fd q w)) as [s1 w1|] eqn:E;
      [|discriminate].
    apply handle_event_pending in E.
    assert (Hq1 : pending w1 fd = q) by (rewrite E; cbn; now rewrite Z.eqb_refl).
    rewrite (IH s1 w1 H Hq1 fd'), E. cbn.
    destruct (fd' =? fd); reflexivity.
  - inversion H; subst. cbn. reflexivity.
Qed.

Lemma handle_event_return_released ev s w b s' w' :
  handle_event ev s w = Return b s' w' -> power_button_held s' = false.
Proof.
  unfold_handlers. split_ifs; intros H; try discriminate.
  inversion H; subst. reflexivity.
Qed.

Lemma drain_return_released fd q s w b s' w' :
  drain fd q s w = Return b s' w' -> power_button_held s' = false.
Proof.
  revert s w. induction q as [|[ev|e] q IH]; cbn; intros s w H; try discriminate.
  destruct (handle_event ev s (set_pending fd q w)) as [s1 w1|b1 s1 w1] eqn:E.
  - eapply IH; eassumption.
  - inversion H; subst. eapply handle_event_return_released; eassumption.
Qed.

Lemma poll_return_released idx s w b s' w' :
  poll_devices idx s w = Return b s' w' ->
  b = true /\ power_button_held s' = false.
Proof.
  revert s w. induction idx as [|i idx IH]; cbn; intros s w H; [discriminate|].
  destruct (nth i (input_fds s) (-1) <? 0); [eauto|].
  destruct (drain _ _ s w) as [s1 w1|b1 s1 w1] eqn:E; [eauto|].
  inversion H; subst. split.
  - apply drain_return in E. apply E.
  - eapply drain_return_released; eassumption.
Qed.

Lemma fds_at_cons i idx s :
  fds_at (i :: idx) s =
  if 0 <=? nth i (input_fds s) (-1)
  then nth i (input_fds s) (-1) :: fds_at idx s else fds_at idx s.
Proof. reflexivity. Qed.

Lemma fds_at_ext idx s s' : input_fds s' = input_fds s -> fds_at idx s' = fds_at idx s.
Proof. unfold fds_at. now intros ->. Qed.

Lemma poll_pending idx s w s' w' :
  poll_devices idx s w = Next s' w' ->
  NoDup (fds_at idx s) ->
  forall fd,
    pending w' fd = if in_dec Z.eq_dec fd (fds_at idx s)
                    then after_drain (pending w fd) else pending w fd.
Proof.
  revert s w. induction idx as [|i idx IH]; intros s w H Hnd fd.
  - cbn in H. inversion H; subst. reflexivity.
  - cbn [poll_devices] in H. rewrite fds_at_cons in *.
    destruct (Z.ltb_spec (nth i (input_fds s) (-1)) 0) as [Hneg|Hpos].
    + destruct (Z.leb_spec 0 (nth i (input_fds s) (-1))); [lia|]. now apply IH.
    + destruct (Z.leb_spec 0 (nth i (input_fds s) (-1))); [|lia].
      set (fd0 := nth i (input_fds s) (-1)) in *.
      destruct (drain fd0 (pending w fd0) s w) as [s1 w1|] eqn:E; [|discriminate].
      pose proof (drain_pending _ _ _ _ _ _ E eq_refl) as Hd.
      apply drain_fds in E. destruct E as [Hfds _].
      inversion Hnd as [|? ? Hnotin Hnd']; subst.
      rewrite <- (fds_at_ext idx s s1 Hfds) in Hnd'.
      rewrite (IH s1 w1 H Hnd' fd), (fds_at_ext idx s s1 Hfds), !Hd.
      destruct (in_dec Z.eq_dec fd (fds_at idx s)) as [Hin|Hout];
        destruct (in_dec Z.eq_dec fd (fd0 :: fds_at idx s)) as [Hin'|Hout'];
        destruct (Z.eqb_spec fd fd0) as [Heq|Hne]; subst;
        try reflexivity; exfalso; cbn in *; intuition congruence.
Qed.

Lemma check_hotkeys_drains s w b s' w' :
  input_monitor_check_hotkeys s w = (b, s', w') ->
  NoDup (polled_fds s) ->
  b = false \/ power_button_held s' = true ->
  forall fd, In fd (polled_fds s) -> pending w' fd = after_drain (pending w fd).
Proof.
  unfold input_monitor_check_hotkeys, polled_fds.
  intros Hcall Hnd Hpath fd Hin.
  destruct (poll_devices (device_indices s) s w) as [s1 w1|b1 s1 w1] eqn:E.
  - pose proof (poll_pending _ _ _ _ _ E Hnd fd) as Hp.
    assert (Hw : pending w' = pending w1).
    { destruct (power_button_held s1); [|now inversion Hcall].
      cbn in Hcall. destruct (_ >=? _); now inversion Hcall. }
    rewrite Hw, Hp.
    destruct (in_dec Z.eq_dec fd (fds_at (device_indices s) s));
      [reflexivity|contradiction].
  - apply poll_return_released in E. destruct E as [-> Hrel].
    inversion Hcall; subst. destruct Hpath; congruence.
Qed.

Lemma check_hotkeys_polled_fds s w :
  polled_fds (snd (fst (input_monitor_check_hotkeys s w))) = polled_fds s
  /\ input_fds (snd (fst (input_monitor_check_hotkeys s w))) = input_fds s
  /\ num_devices (snd (fst (input_monitor_check_hotkeys s w))) = num_devices s.
Proof.
  unfold input_monitor_check_hotkeys.
  pose proof (poll_devices_fds (device_indices s) s w) as F.
  assert (G : forall s', input_fds s' = input_fds s ->
                         num_devices s' = num_devices s ->
                         polled_fds s' = polled_fds s).
  { intros s' H1 H2. unfold polled_fds, device_indices, fds_at.
    now rewrite H1, H2. }
  destruct (poll_devices (device_indices s) s w) as [s' w'|b s' w'].
  - destruct F as [F1 F2].
    destruct (power_button_held s'); [|cbn; auto].
    cbn. destruct (_ >=? _); cbn; auto.
  - destruct F as [_ [F1 F2]]. cbn. auto.
Qed.

(** C5, as the code has it: a failed read, whatever its [errno], only ends
    the [while] loop of that source for this tick, exactly as would-block
    does; the tick goes on with the sources that follow, and the call never
    changes [input_fds] nor [num_devices], so no source is marked dead.
    Whatever a tick met on a source, a later call that does not leave
    through the early return of a long power release reads that source
    again, up to its first failing read. *)
Theorem failed_read_ends_drain_and_keeps_source :
  (forall fd errno q s w,
      drain fd (ReadErr errno :: q) s w = Next s (set_pending fd q w))
  /\ (forall i idx errno q s w,
        0 <= nth i (input_fds s) (-1) ->
        pending w (nth i (input_fds s) (-1)) = ReadErr errno :: q ->
        poll_devices (i :: idx) s w
          = poll_devices idx s (set_pending (nth i (input_fds s) (-1)) q w))
  /\ (forall s w,
        let '(_, s', _) := input_monitor_check_hotkeys s w in
        input_fds s' = input_fds s /\ num_devices s' = num_devices s
        /\ polled_fds s' = polled_fds s)
  /\ (forall s w fd w2 b2 s2 w2',
        In fd (polled_fds s) ->
        NoDup (polled_fds s) ->
        input_monitor_check_hotkeys
          (snd (fst (input_monitor_check_hotkeys s w))) w2 = (b2, s2, w2') ->
        b2 = false \/ power_button_held s2 = true ->
        pending w2' fd = after_drain (pending w2 fd)).
Proof.
  split; [|split; [|split]].
  - reflexivity.
  - intros i idx errno q s w Hfd Hq. cbn [poll_devices].
    destruct (Z.ltb_spec (nth i (input_fds s) (-1)) 0); [lia|].
    rewrite Hq. reflexivity.
  - intros s w. pose proof (check_hotkeys_polled_fds s w) as H.
    destruct (input_monitor_check_hotkeys s w) as [[b s'] w'].
    cbn in H. tauto.
  - intros s w fd w2 b2 s2 w2' Hin Hnd Hcall Hpath.
    destruct (check_hotkeys_polled_fds s w) as [Hp _].
    apply (check_hotkeys_drains _ _ _ _ _ Hcall); rewrite ?Hp; assumption.
Qed.

Lemma failed_read_ends_drain_and_keeps_source_witness :
  let w := world_of [] [(3, [ReadErr EIO; ReadEvent (key_event BTN_MODE 1)]);
                        (4, [ReadEvent (key_event BTN_MODE 1)])] true in
  let r1 := input_monitor_check_hotkeys monitoring w in
  let r2 := input_monitor_check_hotkeys (snd (fst r1)) (snd r1) in
  0 <= nth 0 (input_fds monitoring) (-1)
  /\ pending w (nth 0 (input_fds monitoring) (-1))
     = [ReadErr EIO; ReadEvent (key_event BTN_MODE 1)]
  /\ poll_devices [0%nat; 1%nat; 2%nat] monitoring w
     = poll_devices [1%nat; 2%nat] monitoring
         (set_pending 3 [ReadEvent (key_event BTN_MODE 1)] w)
  /\ pending (snd r1) 3 = [ReadEvent (key_event BTN_MODE 1)]
  /\ pending (snd r2) 3 = after_drain (pending (snd r1) 3).
Proof.
  cbv zeta. split; [vm_compute; discriminate|]. split; [reflexivity|].
  split; [|split; [reflexivity|]].
  - apply (proj1 (proj2 failed_read_ends_drain_and_keeps_source)
             0%nat [1%nat; 2%nat] EIO [ReadEvent (key_event BTN_MODE 1)] monitoring).
    + vm_compute; discriminate.
    + reflexivity.
  - set (w := world_of [] [(3, [ReadErr EIO; ReadEvent (key_event BTN_MODE 1)]);
                           (4, [ReadEvent (key_event BTN_MODE 1)])] true).
    set (r1 := input_monitor_check_hotkeys monitoring w).
    set (r2 := input_monitor_check_hotkeys (snd (fst r1)) (snd r1)).
    apply (proj2 (proj2 (proj2 failed_read_ends_drain_and_keeps_source))
             monitoring w 3 (snd r1) (fst (fst r2)) (snd (fst r2)) (snd r2)).
    + change (In 3 [3; 4; 5]). now left.
    + change (NoDup [3; 4; 5]).
      repeat (constructor; [cbn; intuition discriminate|]). constructor.
    + vm_compute. reflexivity.
    + left. reflexivity.
Defined.

(** C5 as stated fails: the first read of the tick on descriptor 3 fails
    with EIO; the slot keeps its descriptor, and the next tick reads it
    again and handles the mode-button press queued behind the error. *)
Lemma source_is_read_again_after_hard_error :
  let w0 := world_of [] [(3, [ReadErr EIO; ReadEvent (key_event BTN_MODE 1)])]
              true in
  let '(b1, s1, w1) := input_monitor_check_hotkeys monitoring w0 in
  let '(b2, s2, w2) := input_monitor_check_hotkeys s1 w1 in
  EIO <> EAGAIN
  /\ input_fds s1 = [3; 4; 5] /\ num_devices s1 = 3
  /\ pending w1 3 = [ReadEvent (key_event BTN_MODE 1)]
  /\ mode_button_held s1 = false
  /\ mode_button_held s2 = true
  /\ pending w2 3 = [].
Proof.
  vm_compute. repeat split; try reflexivity. discriminate.
Qed.




(** C3, as the code has it: nothing records that Shutdown was signalled.
    Whatever earlier calls returned and whatever events the tick read, a
    call that ends with the power button held returns true exactly when the
    reading taken at the end of the tick is at least 1750 ms after
    [power_press_time]; and a release read at least 1750 ms after the press
    returns true as well. So within one press cycle the signal is given on
    every such tick and once more on the release. A tick with nothing
    queued moreover leaves every static as it was. *)
Theorem long_hold_signalled_on_every_tick :
  (forall s w b s' w',
      input_monitor_check_hotkeys s w = (b, s', w') ->
      power_button_held s' = true ->
      b = (elapsed_ms (clock w' (pred (clock_reads w'))) (power_press_time s')
           >=? LONG_PRESS_MS)
      /\ (0 < clock_reads w')%nat)
  /\ (forall s w,
        power_button_held s = true ->
        LONG_PRESS_MS <= elapsed_ms (now w) (power_press_time s) ->
        exists s' w',
          handle_event (key_event KEY_POWER 0) s w = Return true s' w'
          /\ power_button_held s' = false
          /\ commands w' = commands w)
  /\ (forall s w,
        power_button_held s = true ->
        quiet s w = true ->
        LONG_PRESS_MS <= elapsed_ms (now w) (power_press_time s) ->
        input_monitor_check_hotkeys s w = (true, s, tick_clock w)).
Proof.
  split; [|split].
  - intros s w b s' w' Hcall Hheld. unfold input_monitor_check_hotkeys in Hcall.
    destruct (poll_devices (device_indices s) s w) as [s1 w1|b1 s1 w1] eqn:E.
    + destruct (power_button_held s1) eqn:H1.
      * cbn in Hcall.
        destruct (elapsed_ms (clock w1 (clock_reads w1)) (power_press_time s1)
                  >=? LONG_PRESS_MS) eqn:Hcmp;
          inversion Hcall; subst; cbn; rewrite Hcmp; split; auto; lia.
      * inversion Hcall; subst. congruence.
    + apply poll_return_released in E. destruct E as [_ Hrel].
      inversion Hcall; subst. congruence.
  - intros s w Hheld Hlong. rewrite power_release_outcome by assumption.
    unfold release_outcome. apply Z.geb_le in Hlong. rewrite Hlong.
    eexists. eexists. split; [reflexivity|]. split; reflexivity.
  - intros s w Hheld Hquiet Hlong. now apply held_long_quiet_tick.
Qed.

Lemma long_hold_signalled_on_every_tick_witness :
  let s := power_held_since (at_ms 0) in
  let w := world_of [2000; 2100]
             [(3, [ReadEvent (key_event BTN_MODE 1)]);
              (5, [ReadEvent (key_event KEY_VOLUMEUP 1)])] true in
  let r := input_monitor_check_hotkeys s w in
  power_button_held (snd (fst r)) = true
  /\ current_brightness (snd (fst r)) = 68
  /\ fst (fst r) = true
  /\ fst (fst r)
     = (elapsed_ms (clock (snd r) (pred (clock_reads (snd r))))
                   (power_press_time (snd (fst r))) >=? LONG_PRESS_MS).
Proof.
  cbv zeta. split; [reflexivity|]. split; [reflexivity|]. split; [reflexivity|].
  apply (proj1 long_hold_signalled_on_every_tick
           (power_held_since (at_ms 0))
           (world_of [2000; 2100]
              [(3, [ReadEvent (key_event BTN_MODE 1)]);
               (5, [ReadEvent (key_event KEY_VOLUMEUP 1)])] true)).
  - vm_compute. reflexivity.
  - reflexivity.
Defined.

End Multiplexer.


Section Brightness.

(** One event moves the brightness by nothing, by one guarded step up or by
    one guarded step down. *)
Lemma handle_event_brightness ev s w :
  let b := current_brightness s in
  let b' := flow_brightness (handle_event ev s w) in
  b' = b \/ (b < 100 /\ b' = b + 16) \/ (4 < b /\ b' = b - 16).
Proof.
  unfold flow_brightness. unfold_handlers.
  destruct (negb (ev_type ev =? EV_KEY) && negb (ev_type ev =? EV_SW)); [now left|].
  destruct (ev_code ev =? BTN_MODE); [now left|].
  destruct (ev_code ev =? KEY_POWER); [split_ifs; now left|].
  destruct (ev_code ev =? KEY_VOLUMEUP).
  { destruct (negb (ev_value ev =? 1)); [now left|].
    destruct (mode_button_held s && backlight_on w); [|now left].
    destruct (Z.ltb_spec (current_brightness s) 100); [|now left].
    right; left. cbn. split; [assumption|reflexivity]. }
  destruct (ev_code ev =? KEY_VOLUMEDOWN).
  { destruct (negb (ev_value ev =? 1)); [now left|].
    destruct (mode_button_held s && backlight_on w); [|now left].
    destruct (Z.gtb_spec (current_brightness s) 4); [|now left].
    right; right. cbn. split; [lia|reflexivity]. }
  split_ifs; now left.
Qed.

Lemma step_stays_on_grid b b' :
  In b brightness_steps ->
  b' = b \/ (b < 100 /\ b' = b + 16) \/ (4 < b /\ b' = b - 16) ->
  In b' brightness_steps.
Proof.
  unfold brightness_steps. cbn. lia.
Qed.

Lemma handle_event_on_grid ev s w :
  In (current_brightness s) brightness_steps ->
  In (flow_brightness (handle_event ev s w)) brightness_steps.
Proof.
  intros H. eapply step_stays_on_grid; [exact H|apply handle_event_brightness].
Qed.

Lemma drain_on_grid fd q s w :
  In (current_brightness s) brightness_steps ->
  In (flow_brightness (drain fd q s w)) brightness_steps.
Proof.
  revert s w. induction q as [|[ev|e] q IH]; cbn; intros s w H; try assumption.
  pose proof (handle_event_on_grid ev s (set_pending fd q w) H) as G.
  destruct (handle_event ev s (set_pending fd q w)); [apply IH|]; exact G.
Qed.

Lemma poll_on_grid idx s w :
  In (current_brightness s) brightness_steps ->
  In (flow_brightness (poll_devices idx s w)) brightness_steps.
Proof.
  revert s w. induction idx as [|i idx IH]; cbn; intros s w H; [assumption|].
  destruct (nth i (input_fds s) (-1) <? 0); [now apply IH|].
  pose proof (drain_on_grid (nth i (input_fds s) (-1))
                (pending w (nth i (input_fds s) (-1))) s w H) as G.
  destruct (drain _ _ s w); [apply IH|]; exact G.
Qed.

Lemma check_hotkeys_on_grid s w :
  In (current_brightness s) brightness_steps ->
  In (current_brightness (snd (fst (input_monitor_check_hotkeys s w))))
     brightness_steps.
Proof.
  intros H. unfold input_monitor_check_hotkeys.
  pose proof (poll_on_grid (device_indices s) s w H) as G.
  destruct (poll_devices (device_indices s) s w) as [s' w'|b s' w']; [|exact G].
  destruct (power_button_held s'); [|exact G].
  cbn. destruct (_ >=? _); exact G.
Qed.

Lemma init_loop_brightness names s d :
  current_brightness (fst (init_loop names s d)) = current_brightness s.
Proof.
  revert s d. induction names as [|nm names IH]; cbn; intros s d; [reflexivity|].
  destruct (find_device_by_name nm d) as [fd d1].
  destruct ((fd >=? 0) && (num_devices s <? MAX_INPUT_DEVICES)); now rewrite IH.
Qed.

Lemma init_brightness s d :
  current_brightness (snd (fst (input_monitor_init s d))) = current_brightness s.
Proof.
  unfold input_monitor_init.
  pose proof (init_loop_brightness device_names (set_devices (input_fds s) 0 s) d) as H.
  destruct (init_loop device_names (set_devices (input_fds s) 0 s) d) as [s1 d1].
  cbn in H. destruct (num_devices s1 =? 0); exact H.
Qed.

Lemma run_call_on_grid s c :
  In (current_brightness s) brightness_steps ->
  In (current_brightness (run_call s c)) brightness_steps.
Proof.
  intros H. destruct c as [d|w|]; cbn [run_call].
  - now rewrite init_brightness.
  - now apply check_hotkeys_on_grid.
  - exact H.
Qed.

Lemma run_on_grid calls s :
  In (current_brightness s) brightness_steps ->
  In (current_brightness (run calls s)) brightness_steps.
Proof.
  unfold run. revert s. induction calls as [|c calls IH]; cbn; intros s H.
  - exact H.
  - apply IH. now apply run_call_on_grid.
Qed.

(** C7: with the mode button held and the backlight on, a volume-up press
    below the top level raises the level by one step of 16 and runs one
    backlight write, that of the new level, and touches no other static; at
    the top level 100 it changes nothing and runs no command. Volume-down
    mirrors it: one step of 16 down above the bottom level, nothing at the
    bottom level 4. From a level on the seven-step grid the level stays
    between 4 and 100. *)
Theorem brightness_step_is_clamped s w :
  mode_button_held s = true ->
  backlight_on w = true ->
  In (current_brightness s) brightness_steps ->
  let b := current_brightness s in
  let up := handle_event (key_event KEY_VOLUMEUP 1) s w in
  let down := handle_event (key_event KEY_VOLUMEDOWN 1) s w in
  (b < 100 ->
   exists s' w',
     up = Next s' w'
     /\ current_brightness s' = b + 16
     /\ commands w' = commands w ++ [SetBacklight (backlight_raw (b + 16))]
     /\ mode_button_held s' = true
     /\ power_button_held s' = power_button_held s
     /\ power_press_time s' = power_press_time s
     /\ last_wake_time s' = last_wake_time s
     /\ clock_reads w' = clock_reads w)
  /\ (b = 100 ->
      up = Next s w /\ flow_brightness up = 100
      /\ commands (flow_world up) = commands w)
  /\ (4 < b ->
      exists s' w',
        down = Next s' w'
        /\ current_brightness s' = b - 16
        /\ commands w' = commands w ++ [SetBacklight (backlight_raw (b - 16))]
        /\ mode_button_held s' = true
        /\ power_button_held s' = power_button_held s
        /\ power_press_time s' = power_press_time s
        /\ last_wake_time s' = last_wake_time s
        /\ clock_reads w' = clock_reads w)
  /\ (b = 4 ->
      down = Next s w /\ flow_brightness down = 4
      /\ commands (flow_world down) = commands w)
  /\ 4 <= flow_brightness up <= 100
  /\ 4 <= flow_brightness down <= 100.
Proof.
  intros Hmode Hbl Hgrid b up down.
  assert (Hup : up = if b <? 100
                     then Next (set_current_brightness (b + 16) s)
                            (system (SetBacklight (backlight_raw (b + 16))) w)
                     else Next s w).
  { subst up b. unfold_handlers. cbn. rewrite Hmode, Hbl. reflexivity. }
  assert (Hdown : down = if b >? 4
                         then Next (set_current_brightness (b - 16) s)
                                (system (SetBacklight (backlight_raw (b - 16))) w)
                         else Next s w).
  { subst down b. unfold_handlers. cbn. rewrite Hmode, Hbl. reflexivity. }
  assert (Hrange : forall v, In v brightness_steps -> 4 <= v <= 100).
  { unfold brightness_steps. cbn. lia. }
  split; [|split; [|split; [|split; [|split]]]].
  - intros H. rewrite Hup. destruct (Z.ltb_spec b 100); [|lia].
    eexists. eexists. split; [reflexivity|]. cbn. repeat split; auto.
  - intros H. rewrite Hup. destruct (Z.ltb_spec b 100); [lia|].
    cbn. repeat split; auto.
  - intros H. rewrite Hdown. destruct (Z.gtb_spec b 4); [|lia].
    eexists. eexists. split; [reflexivity|]. cbn. repeat split; auto.
  - intros H. rewrite Hdown. destruct (Z.gtb_spec b 4); [lia|].
    cbn. repeat split; auto.
  - apply Hrange, handle_event_on_grid, Hgrid.
  - apply Hrange, handle_event_on_grid, Hgrid.
Qed.

Lemma brightness_step_is_clamped_witness :
  let s := set_mode_button_held true monitoring in
  let w := world_of [] [] true in
  mode_button_held s = true
  /\ backlight_on w = true
  /\ In (current_brightness s) brightness_steps
  /\ exists s' w',
       handle_event (key_event KEY_VOLUMEUP 1) s w = Next s' w'
       /\ current_brightness s' = 52 + 16
       /\ commands w' = commands w ++ [SetBacklight (backlight_raw (52 + 16))]
       /\ mode_button_held s' = true
       /\ power_button_held s' = power_button_held s
       /\ power_press_time s' = power_press_time s
       /\ last_wake_time s' = last_wake_time s
       /\ clock_reads w' = clock_reads w.
Proof.
  cbv zeta.
  assert (Hgrid : In (current_brightness (set_mode_button_held true monitoring))
                     brightness_steps) by (cbn; tauto).
  split; [reflexivity|]. split; [reflexivity|]. split; [exact Hgrid|].
  apply (brightness_step_is_clamped (set_mode_button_held true monitoring)
           (world_of [] [] true) eq_refl eq_refl Hgrid).
  reflexivity.
Defined.

(** C9: the brightness starts at 52 and, after any sequence of calls into
    the module, each in any environment, is one of 4, 20, 36, 52, 68, 84 and
    100; a single event leaves it alone, adds 16 when it is below 100, or
    subtracts 16 when it is above 4. *)
Theorem brightness_stays_on_seven_steps :
  current_brightness initial_monitor = 52
  /\ (forall calls,
        In (current_brightness (run calls initial_monitor)) brightness_steps)
  /\ (forall ev s w,
        let b := current_brightness s in
        let b' := flow_brightness (handle_event ev s w) in
        b' = b \/ (b < 100 /\ b' = b + 16) \/ (4 < b /\ b' = b - 16)).
Proof.
  split; [reflexivity|]. split.
  - intros calls. apply run_on_grid. cbn. tauto.
  - apply handle_event_brightness.
Qed.

End Brightness.


(** * Properties of the discovery *)

Section Registry.

Lemma close_after_open fd l : remove_first fd (fd :: l) = l.
Proof. cbn. now rewrite Z.eqb_refl. Qed.

Lemma warnings_app out1 out2 : warnings (out1 ++ out2) = warnings out1 ++ warnings out2.
Proof. unfold warnings. apply flat_map_app. Qed.

Lemma scan_entries_spec name dfd es d :
  let r := scan_entries name dfd es d in
  scans (snd r) = scans d
  /\ warnings (output (snd r)) = warnings (output d)
  /\ if existsb (accepts name) es then 0 <= fst r
     else fst r = -1 /\ open_fds (snd r) = remove_first dfd (open_fds d).
Proof.
  revert d. induction es as [|e es IH]; intros d; cbn zeta.
  - cbn. auto.
  - cbn [scan_entries existsb]. unfold accepts at 1.
    destruct (String.prefix "event" (d_name e)); cbn [negb andb orb]; [|apply IH].
    destruct (d_open e) as [n|]; cbn [andb orb]; [|apply IH].
    destruct (strstr (reported_name e) name); cbn [orb].
    + cbn. rewrite warnings_app. cbn. rewrite app_nil_r. repeat split; lia.
    + specialize (IH (fd_closed (Z.of_nat n) (fd_opened (Z.of_nat n) d))).
      cbn zeta in IH. cbn [fd_closed fd_opened scans output open_fds] in IH.
      rewrite close_after_open in IH. exact IH.
Qed.

Lemma find_device_spec name d :
  let r := find_device_by_name name d in
  scans (snd r) = tl (scans d)
  /\ warnings (output (snd r)) = warnings (output d)
  /\ if resolves name (hd None (scans d)) then 0 <= fst r
     else fst r = -1 /\ open_fds (snd r) = open_fds d.
Proof.
  unfold find_device_by_name.
  destruct (scans d) as [|[[dfd es]|] rest] eqn:E; cbn zeta.
  - cbn. rewrite E. auto.
  - pose proof (scan_entries_spec name (Z.of_nat dfd) es
                  (mkDevfs rest (Z.of_nat dfd :: open_fds d) (output d))) as H.
    cbn zeta in H. cbn [scans output open_fds] in H.
    rewrite close_after_open in H. exact H.
  - cbn. auto.
Qed.

Lemma resolved_count_cons nm rest snaps :
  resolved_count (nm :: rest) snaps =
  (if resolves nm (hd None snaps) then 1 else 0) + resolved_count rest (tl snaps).
Proof.
  unfold resolved_count. cbn [resolved_roles filter].
  destruct (resolves nm (hd None snaps)); cbn [List.length]; lia.
Qed.

Lemma resolved_count_nonneg names snaps : 0 <= resolved_count names snaps.
Proof. unfold resolved_count. lia. Qed.

Lemma resolved_count_zero names snaps :
  resolved_count names snaps = 0 <->
  forallb negb (resolved_roles names snaps) = true.
Proof.
  revert snaps. induction names as [|nm rest IH]; intros snaps.
  - cbn. tauto.
  - rewrite resolved_count_cons. cbn [resolved_roles forallb].
    pose proof (resolved_count_nonneg rest (tl snaps)).
    destruct (resolves nm (hd None snaps)); cbn [negb andb].
    + split; [lia|discriminate].
    + rewrite <- IH. split; lia.
Qed.

Lemma init_loop_spec names s d :
  num_devices s + Z.of_nat (List.length names) <= MAX_INPUT_DEVICES ->
  let r := init_loop names s d in
  num_devices (fst r) = num_devices s + resolved_count names (scans d)
  /\ warnings (output (snd r))
     = warnings (output d) ++ unresolved_names names (scans d)
  /\ (resolved_count names (scans d) = 0 -> open_fds (snd r) = open_fds d).
Proof.
  revert s d. induction names as [|nm rest IH]; intros s d Hroom; cbn zeta.
  - cbn. rewrite app_nil_r. repeat split; unfold resolved_count; cbn; lia.
  - cbn [init_loop unresolved_names]. rewrite resolved_count_cons.
    cbn [List.length] in Hroom.
    pose proof (find_device_spec nm d) as F. cbn zeta in F.
    destruct (find_device_by_name nm d) as [fd d1]. cbn [fst snd] in F.
    destruct F as [Fscans [Fwarn Fres]].
    pose proof (resolved_count_nonneg rest (tl (scans d))) as Hnn.
    destruct (resolves nm (hd None (scans d))).
    + destruct (Z.geb_spec fd 0); [|lia].
      destruct (Z.ltb_spec (num_devices s) MAX_INPUT_DEVICES); [|lia].
      cbn [andb].
      match goal with
      | |- context [init_loop rest ?s1 d1] =>
          specialize (IH s1 d1); cbn [num_devices set_devices] in IH
      end.
      destruct IH as [IHn [IHw IHo]]; [lia|].
      rewrite IHn, IHw, Fscans, Fwarn.
      split; [lia|]. split; [reflexivity|]. intros Hz. exfalso. lia.
    + destruct Fres as [-> Fopen]. cbn [Z.geb Z.compare andb].
      specialize (IH s (print (WarnNotFound nm) d1)).
      cbn [print scans output open_fds] in IH.
      destruct IH as [IHn [IHw IHo]]; [lia|].
      rewrite Fscans in IHo.
      rewrite IHn, IHw, Fscans, warnings_app, Fwarn. cbn [warnings flat_map app].
      rewrite <- app_assoc. cbn [app].
      repeat split; try reflexivity; try lia.
      intros Hz. rewrite IHo by lia. exact Fopen.
Qed.

Lemma some_iff_not_none (l : list bool) :
  existsb (fun r => r) l = negb (forallb negb l).
Proof.
  induction l as [|r l IH]; [reflexivity|].
  cbn [existsb forallb]. rewrite IH. now destruct r.
Qed.

(** C8: initialisation returns false exactly when none of the three roles
    resolved; it prints one warning for each role that did not resolve and
    for no other, returns true as soon as one role resolved, and when it
    returns false the process holds the same descriptors as before the call:
    the directory and every node opened while scanning have been closed. *)
Theorem init_fails_iff_no_role_resolved s d :
  let '(b, s', d') := input_monitor_init s d in
  let roles := resolved_roles device_names (scans d) in
  (b = false <-> forallb negb roles = true)
  /\ (b = true <-> existsb (fun r => r) roles = true)
  /\ num_devices s' = resolved_count device_names (scans d)
  /\ warnings (output d') = warnings (output d) ++ unresolved_names device_names (scans d)
  /\ (b = false -> open_fds d' = open_fds d).
Proof.
  unfold input_monitor_init.
  pose proof (init_loop_spec device_names (set_devices (input_fds s) 0 s) d) as H.
  cbn zeta in H.
  destruct (init_loop device_names (set_devices (input_fds s) 0 s) d) as [s1 d1].
  cbn [fst snd num_devices set_devices] in H.
  destruct H as [Hn [Hw Ho]]; [unfold MAX_INPUT_DEVICES, device_names; cbn; lia|].
  cbn zeta. pose proof (resolved_count_zero device_names (scans d)) as Hz.
  assert (Hex : existsb (fun r : bool => r) (resolved_roles device_names (scans d))
                = negb (forallb negb (resolved_roles device_names (scans d)))).
  { apply some_iff_not_none. }
  rewrite Hex.
  destruct (Z.eqb_spec (num_devices s1) 0) as [Hzero|Hpos].
  - assert (Hc : resolved_count device_names (scans d) = 0) by lia.
    pose proof (proj1 Hz Hc) as Hall. rewrite Hall.
    cbn [print output open_fds]. rewrite warnings_app, Hw. cbn [warnings flat_map].
    rewrite app_nil_r.
    repeat split; auto; try discriminate; lia.
  - assert (Hall : forallb negb (resolved_roles device_names (scans d)) = false).
    { apply not_true_is_false. intros E. apply Hz in E. lia. }
    rewrite Hall. cbn [print output open_fds]. rewrite warnings_app, Hw.
    cbn [warnings flat_map]. rewrite app_nil_r.
    repeat split; auto; try discriminate; lia.
Qed.

Lemma init_fails_iff_no_role_resolved_witness :
  input_monitor_init initial_monitor barren_devfs
    = (false, initial_monitor,
       mkDevfs [] [0; 1; 2]
         [WarnNotFound "joypad"; WarnNotFound "pwrkey"; WarnNotFound "gpio-keys";
          FailedAny])
  /\ resolved_roles device_names (scans barren_devfs) = [false; false; false]
  /\ (false = false <->
      forallb negb (resolved_roles device_names (scans barren_devfs)) = true).
Proof.
  split; [reflexivity|]. split; [reflexivity|].
  exact (proj1 (init_fails_iff_no_role_resolved initial_monitor barren_devfs)).
Defined.

(** A discovery that resolves two roles out of three: one warning, the two
    descriptors stored in the first two slots, and they stay open. *)
Example init_degraded :
  input_monitor_init initial_monitor example_devfs
    = (true,
       mkMonitor [8; 9; -1] 2 (mkTimespec 0 0) (mkTimespec 0 0) false false 52,
       mkDevfs [] [9; 8; 0; 1; 2]
         [WarnNotFound "joypad";
          FoundDevice "/dev/input/event0" "rk805 pwrkey";
          FoundDevice "/dev/input/event2" "gpio-keys";
          Monitoring 2]).
Proof. reflexivity. Qed.

End Registry.


(** * Further properties of the poll *)

Section PollInvariant.

Variables I R : monitor -> world -> Prop.
Variable ok : input_event -> Prop.

Hypothesis I_queue : forall fd q s w, I s w -> I s (set_pending fd q w).
Hypothesis I_event :
  forall ev s w, ok ev -> I s w -> flow_inv I R (handle_event ev s w).

Lemma drain_inv fd q s w :
  (forall ev, In (ReadEvent ev) q -> ok ev) ->
  I s w -> flow_inv I R (drain fd q s w).
Proof.
  revert s w. induction q as [|[ev|e] q IH]; cbn [drain]; intros s w Hq HI.
  - exact HI.
  - assert (Hev : ok ev) by (apply Hq; now left).
    pose proof (I_event ev s (set_pending fd q w) Hev (I_queue fd q s w HI)) as H.
    destruct (handle_event ev s (set_pending fd q w)) as [s1 w1|b s1 w1].
    + apply IH; [|exact H]. intros ev' Hin. apply Hq. now right.
    + exact H.
  - cbn. now apply I_queue.
Qed.

Lemma after_drain_incl q : incl (after_drain q) q.
Proof.
  induction q as [|[ev|e] q IH]; cbn.
  - apply incl_refl.
  - now apply incl_tl.
  - apply incl_tl, incl_refl.
Qed.

Lemma poll_inv idx s w :
  queued_events_ok ok idx s w ->
  I s w -> flow_inv I R (poll_devices idx s w).
Proof.
  revert s w. induction idx as [|i idx IH]; intros s w Hq HI; [exact HI|].
  cbn [poll_devices]. unfold queued_events_ok in Hq. rewrite fds_at_cons in Hq.
  destruct (Z.ltb_spec (nth i (input_fds s) (-1)) 0) as [Hneg|Hpos].
  - destruct (Z.leb_spec 0 (nth i (input_fds s) (-1))); [lia|].
    apply IH; assumption.
  - destruct (Z.leb_spec 0 (nth i (input_fds s) (-1))); [|lia].
    set (fd0 := nth i (input_fds s) (-1)) in *.
    assert (Hd : flow_inv I R (drain fd0 (pending w fd0) s w)).
    { apply drain_inv; [|exact HI]. intros ev Hin. apply (Hq fd0); [now left|exact Hin]. }
    destruct (drain fd0 (pending w fd0) s w) as [s1 w1|b s1 w1] eqn:E; [|exact Hd].
    pose proof (drain_pending _ _ _ _ _ _ E eq_refl) as Hp.
    apply drain_fds in E. destruct E as [Hfds _].
    apply IH; [|exact Hd].
    intros fd ev Hfd Hin. rewrite (fds_at_ext idx s s1 Hfds) in Hfd.
    apply (Hq fd); [now right|].
    rewrite Hp in Hin. destruct (Z.eqb_spec fd fd0) as [->|_]; [|exact Hin].
    now apply after_drain_incl.
Qed.

End PollInvariant.


Section QuietTicks.

Lemma inert_event_is_skipped ev s w :
  inert ev = true -> handle_event ev s w = Next s w.
Proof.
  unfold inert, class_ok. unfold_handlers.
  destruct (ev_type ev =? EV_KEY), (ev_type ev =? EV_SW); cbn; try reflexivity.
  all: destruct (ev_code ev =? BTN_MODE); [discriminate|].
  all: destruct (ev_code ev =? KEY_POWER);
    [destruct (ev_value ev =? 1), (ev_value ev =? 0); cbn;
     try discriminate; reflexivity|].
  all: destruct (ev_code ev =? KEY_VOLUMEUP);
    [cbn; destruct (ev_value ev =? 1); cbn; try discriminate; reflexivity|].
  all: destruct (ev_code ev =? KEY_VOLUMEDOWN);
    [cbn; destruct (ev_value ev =? 1); cbn; try discriminate; reflexivity|].
  all: destruct (ev_code ev =? SW_LID);
    [cbn; destruct (ev_value ev =? 1); cbn; try discriminate; reflexivity|].
  all: reflexivity.
Qed.

(** X3: A tick that reads only events the [switch] has no use for (other event
    classes such as the EV_SYN that follows every key, codes without a
    [case], key repeats of the volume and power keys, lid openings) writes no
    static and runs no command; what it returns is the end-of-tick
    long-hold check alone. *)
Theorem tick_of_inert_events_changes_nothing s w :
  queued_events_ok (fun ev => inert ev = true) (device_indices s) s w ->
  exists w',
    input_monitor_check_hotkeys s w = (long_hold s (now w), s, w')
    /\ commands w' = commands w
    /\ clock w' = clock w.
Proof.
  intros Hq.
  pose proof (poll_inv
                (fun s1 w1 => s1 = s /\ commands w1 = commands w
                              /\ clock w1 = clock w
                              /\ clock_reads w1 = clock_reads w)
                (fun _ _ => False)
                (fun ev => inert ev = true)) as P.
  specialize (P ltac:(cbn; intuition)).
  assert (Hstep : forall ev s0 w0,
             inert ev = true ->
             s0 = s /\ commands w0 = commands w /\ clock w0 = clock w
             /\ clock_reads w0 = clock_reads w ->
             flow_inv
               (fun s1 w1 => s1 = s /\ commands w1 = commands w
                             /\ clock w1 = clock w
                             /\ clock_reads w1 = clock_reads w)
               (fun _ _ => False) (handle_event ev s0 w0)).
  { intros ev s0 w0 Hin HI. rewrite inert_event_is_skipped by assumption. exact HI. }
  specialize (P Hstep (device_indices s) s w Hq ltac:(intuition)).
  unfold input_monitor_check_hotkeys, long_hold, now.
  destruct (poll_devices (device_indices s) s w) as [s1 w1|b s1 w1];
    cbn in P; [|contradiction].
  destruct P as [-> [Hc [Hk Hn]]].
  destruct (power_button_held s); cbn.
  - rewrite Hk, Hn.
    destruct (elapsed_ms (clock w (clock_reads w)) (power_press_time s)
              >=? LONG_PRESS_MS);
      eexists; (split; [reflexivity|]); cbn; auto.
  - eexists. split; [reflexivity|]. auto.
Qed.

Lemma tick_of_inert_events_changes_nothing_witness :
  let s := power_held_since (at_ms 0) in
  let w := world_of [1000]
             [(4, [ReadEvent (mkEvent 0 0 0); ReadEvent (key_event KEY_POWER 2);
                   ReadEvent (mkEvent 4 4 30)]);
              (5, [ReadEvent (lid_event 0); ReadEvent (key_event 30 1)])] true in
  exists w',
    input_monitor_check_hotkeys s w = (false, s, w')
    /\ commands w' = commands w
    /\ clock w' = clock w.
Proof.
  cbv zeta.
  apply (tick_of_inert_events_changes_nothing
           (power_held_since (at_ms 0))
           (world_of [1000]
             [(4, [ReadEvent (mkEvent 0 0 0); ReadEvent (key_event KEY_POWER 2);
                   ReadEvent (mkEvent 4 4 30)]);
              (5, [ReadEvent (lid_event 0); ReadEvent (key_event 30 1)])] true)).
  intros fd ev Hfd Hin.
  change (In fd [3; 4; 5]) in Hfd. cbn in Hfd.
  destruct Hfd as [<-|[<-|[<-|[]]]]; cbn in Hin;
    repeat (destruct Hin as [Hin|Hin]; [inversion Hin; reflexivity|]);
    destruct Hin.
Defined.

(** X2: Without a power-key event in the queues and with the power button not
    held, the call cannot signal Shutdown: it returns false and the power
    button is still not held. *)
Theorem no_shutdown_without_power_key s w :
  power_button_held s = false ->
  queued_events_ok (fun ev => ev_code ev <> KEY_POWER) (device_indices s) s w ->
  exists s' w',
    input_monitor_check_hotkeys s w = (false, s', w')
    /\ power_button_held s' = false.
Proof.
  intros Hheld Hq.
  pose proof (poll_inv
                (fun s1 _ => power_button_held s1 = false)
                (fun _ _ => False)
                (fun ev => ev_code ev <> KEY_POWER)) as P.
  specialize (P ltac:(auto)).
  assert (Hstep : forall ev s0 w0,
             ev_code ev <> KEY_POWER ->
             power_button_held s0 = false ->
             flow_inv (fun s1 _ => power_button_held s1 = false)
                      (fun _ _ => False) (handle_event ev s0 w0)).
  { intros ev s0 w0 Hcode H0. unfold_handlers.
    destruct (negb (ev_type ev =? EV_KEY) && negb (ev_type ev =? EV_SW));
      [exact H0|].
    destruct (ev_code ev =? BTN_MODE); [exact H0|].
    destruct (Z.eqb_spec (ev_code ev) KEY_POWER); [contradiction|].
    split_ifs; exact H0. }
  specialize (P Hstep (device_indices s) s w Hq Hheld).
  unfold input_monitor_check_hotkeys.
  destruct (poll_devices (device_indices s) s w) as [s1 w1|b s1 w1];
    cbn in P; [|contradiction].
  rewrite P. eauto.
Qed.

Lemma no_shutdown_without_power_key_witness :
  let w := world_of [5000]
             [(3, [ReadEvent (key_event BTN_MODE 1)]);
              (5, [ReadEvent (key_event KEY_VOLUMEUP 1); ReadEvent (lid_event 1)])]
             true in
  exists s' w',
    input_monitor_check_hotkeys monitoring w = (false, s', w')
    /\ power_button_held s' = false.
Proof.
  cbv zeta.
  apply (no_shutdown_without_power_key monitoring); [reflexivity|].
  intros fd ev Hfd Hin.
  change (In fd [3; 4; 5]) in Hfd. cbn in Hfd.
  destruct Hfd as [<-|[<-|[<-|[]]]]; cbn in Hin;
    repeat (destruct Hin as [Hin|Hin]; [inversion Hin; discriminate|]);
    destruct Hin.
Defined.

End QuietTicks.


Section BacklightCommands.

(** What one event can do to the command log and to the brightness: nothing,
    one command that is no backlight write, or one backlight write of the
    new level, which needs the mode button held and the backlight on. *)
Lemma handle_event_effect ev s w :
  let f := handle_event ev s w in
  (commands (flow_world f) = commands w
   /\ flow_brightness f = current_brightness s)
  \/ (exists c, commands (flow_world f) = commands w ++ [c]
                /\ is_backlight c = false
                /\ flow_brightness f = current_brightness s)
  \/ (commands (flow_world f)
        = commands w ++ [SetBacklight (backlight_raw (flow_brightness f))]
      /\ mode_button_held s = true /\ backlight_on w = true
      /\ class_ok ev = true
      /\ (ev_code ev = KEY_VOLUMEUP \/ ev_code ev = KEY_VOLUMEDOWN)).
Proof.
  unfold flow_brightness, class_ok. unfold_handlers.
  destruct (ev_type ev =? EV_KEY) eqn:Ek, (ev_type ev =? EV_SW) eqn:Es; cbn;
    try (left; split; reflexivity).
  all: destruct (ev_code ev =? BTN_MODE); [left; split; reflexivity|].
  all: destruct (ev_code ev =? KEY_POWER);
    [split_ifs; cbn;
     try (left; split; reflexivity);
     right; left; exists Suspend; repeat split; reflexivity|].
  all: destruct (Z.eqb_spec (ev_code ev) KEY_VOLUMEUP) as [Hup|_];
    [destruct (negb (ev_value ev =? 1)); [left; split; reflexivity|];
     destruct (mode_button_held s) eqn:Hm, (backlight_on w) eqn:Hb; cbn;
     try (right; left; exists VolumeUp; repeat split; reflexivity);
     destruct (current_brightness s <? 100); cbn;
     [right; right; repeat split; auto|left; split; reflexivity]|].
  all: destruct (Z.eqb_spec (ev_code ev) KEY_VOLUMEDOWN) as [Hdown|_];
    [destruct (negb (ev_value ev =? 1)); [left; split; reflexivity|];
     destruct (mode_button_held s) eqn:Hm, (backlight_on w) eqn:Hb; cbn;
     try (right; left; exists VolumeDown; repeat split; reflexivity);
     destruct (current_brightness s >? 4); cbn;
     [right; right; repeat split; auto|left; split; reflexivity]|].
  all: destruct (ev_code ev =? SW_LID);
    [destruct (ev_value ev =? 1); cbn;
     [right; left; exists Suspend; repeat split; reflexivity
     |left; split; reflexivity]|].
  all: left; split; reflexivity.
Qed.

Lemma check_hotkeys_inv (I R : monitor -> world -> Prop) s w :
  (forall s1 w1, I s1 w1 -> I s1 (tick_clock w1)) ->
  flow_inv I R (poll_devices (device_indices s) s w) ->
  let '(_, s', w') := input_monitor_check_hotkeys s w in I s' w' \/ R s' w'.
Proof.
  intros Hclock H. unfold input_monitor_check_hotkeys.
  destruct (poll_devices (device_indices s) s w) as [s1 w1|b s1 w1]; cbn in H.
  - destruct (power_button_held s1); [|now left].
    cbn. destruct (_ >=? _); left; now apply Hclock.
  - now right.
Qed.

(** The commands a tick adds to the log of [w0], all of them satisfying
    [good], next to a fact [J] about the statics and the world. *)
Lemma tick_log_inv (J : monitor -> world -> Prop) (good : command -> Prop)
      (ok : input_event -> Prop) s w :
  (forall fd q s1 w1, J s1 w1 -> J s1 (set_pending fd q w1)) ->
  (forall s1 w1, J s1 w1 -> J s1 (tick_clock w1)) ->
  (forall ev s1 w1, ok ev -> J s1 w1 ->
     J (flow_monitor (handle_event ev s1 w1)) (flow_world (handle_event ev s1 w1))
     /\ exists new, commands (flow_world (handle_event ev s1 w1))
                    = commands w1 ++ new /\ Forall good new) ->
  queued_events_ok ok (device_indices s) s w ->
  J s w ->
  let '(_, s', w') := input_monitor_check_hotkeys s w in
  J s' w' /\ exists extra, commands w' = commands w ++ extra /\ Forall good extra.
Proof.
  intros Jq Jc Jev Hq HJ.
  set (I := fun s1 w1 => J s1 w1 /\ exists extra,
                 commands w1 = commands w ++ extra /\ Forall good extra).
  assert (HI : flow_inv I I (poll_devices (device_indices s) s w)).
  { apply (poll_inv I I ok).
    - intros fd q s1 w1 [H1 H2]. split; [now apply Jq|exact H2].
    - intros ev s1 w1 Hok [H1 [extra [Hc Hg]]].
      destruct (Jev ev s1 w1 Hok H1) as [H1' [new [Hc' Hg']]].
      assert (HI' : I (flow_monitor (handle_event ev s1 w1))
                      (flow_world (handle_event ev s1 w1))).
      { split; [exact H1'|]. exists (extra ++ new). split.
        - rewrite Hc', Hc. now rewrite app_assoc.
        - now apply Forall_app. }
      destruct (handle_event ev s1 w1); exact HI'.
    - exact Hq.
    - split; [exact HJ|]. exists []. split; [now rewrite app_nil_r|constructor]. }
  pose proof (check_hotkeys_inv I I s w) as C.
  assert (Hclock : forall s1 w1, I s1 w1 -> I s1 (tick_clock w1)).
  { intros s1 w1 [H1 H2]. split; [now apply Jc|exact H2]. }
  specialize (C Hclock HI).
  destruct (input_monitor_check_hotkeys s w) as [[b s'] w'].
  destruct C as [C|C]; exact C.
Qed.

(** X5: With the backlight off, a whole tick never changes the brightness level
    and never writes the backlight, whatever is queued: volume keys act on
    the volume alone. *)
Theorem backlight_off_freezes_brightness s w :
  backlight_on w = false ->
  let '(_, s', w') := input_monitor_check_hotkeys s w in
  current_brightness s' = current_brightness s
  /\ backlight_on w' = false
  /\ exists extra,
       commands w' = commands w ++ extra
       /\ Forall (fun c => is_backlight c = false) extra.
Proof.
  intros Hoff.
  pose proof (tick_log_inv
                (fun s1 w1 => backlight_on w1 = false
                              /\ current_brightness s1 = current_brightness s)
                (fun c => is_backlight c = false)
                (fun _ => True) s w) as T.
  cbv beta in T.
  assert (Hev : forall ev s1 w1, True ->
            backlight_on w1 = false /\ current_brightness s1 = current_brightness s ->
            (backlight_on (flow_world (handle_event ev s1 w1)) = false
             /\ current_brightness (flow_monitor (handle_event ev s1 w1))
                = current_brightness s)
            /\ exists new, commands (flow_world (handle_event ev s1 w1))
                           = commands w1 ++ new
                           /\ Forall (fun c => is_backlight c = false) new).
  { intros ev s1 w1 _ [Hb Hl].
    pose proof (handle_event_frame ev s1 w1) as F.
    assert (Hb' : backlight_on (flow_world (handle_event ev s1 w1)) = false).
    { destruct (handle_event ev s1 w1); cbn in *; unfold frame_ok in F;
        intuition congruence. }
    pose proof (handle_event_effect ev s1 w1) as E. cbv zeta in E.
    unfold flow_brightness in E.
    destruct E as [[Hc Hk]|[[c [Hc [Hn Hk]]]|[_ [_ [Hon _]]]]].
    - repeat split; try congruence. exists []. split; [now rewrite app_nil_r|constructor].
    - repeat split; try congruence. exists [c]. split; [exact Hc|]. now constructor.
    - congruence. }
  specialize (T ltac:(cbn; auto) ltac:(cbn; auto) Hev
                ltac:(intros fd ev _ _; exact Logic.I) (conj Hoff eq_refl)).
  destruct (input_monitor_check_hotkeys s w) as [[b s'] w'].
  destruct T as [[T1 T2] T3]. auto.
Qed.

Lemma backlight_off_freezes_brightness_witness :
  let s := set_mode_button_held true monitoring in
  let w := world_of []
             [(5, [ReadEvent (key_event KEY_VOLUMEUP 1);
                   ReadEvent (key_event KEY_VOLUMEDOWN 1)])] false in
  backlight_on w = false
  /\ let '(_, s', w') := input_monitor_check_hotkeys s w in
     current_brightness s' = current_brightness s
     /\ backlight_on w' = false
     /\ exists extra,
          commands w' = commands w ++ extra
          /\ Forall (fun c => is_backlight c = false) extra.
Proof.
  cbv zeta. split; [reflexivity|].
  apply (backlight_off_freezes_brightness (set_mode_button_held true monitoring)).
  reflexivity.
Defined.

Lemma handle_event_mode_released ev s w :
  (ev_code ev = BTN_MODE -> ev_value ev <> 1 /\ ev_value ev <> 2) ->
  mode_button_held s = false ->
  mode_button_held (flow_monitor (handle_event ev s w)) = false.
Proof.
  intros Hok Hm. unfold_handlers.
  destruct (negb (ev_type ev =? EV_KEY) && negb (ev_type ev =? EV_SW));
    [exact Hm|].
  destruct (Z.eqb_spec (ev_code ev) BTN_MODE) as [Hc|_].
  - destruct (Hok Hc) as [H1 H2]. cbn.
    destruct (Z.eqb_spec (ev_value ev) 1); [contradiction|].
    destruct (Z.eqb_spec (ev_value ev) 2); [contradiction|]. reflexivity.
  - split_ifs; exact Hm.
Qed.

(** X6: While the mode button is not held and no press or repeat of it is
    queued, a whole tick never changes the brightness level and never writes
    the backlight: volume keys act on the volume alone. *)
Theorem mode_released_freezes_brightness s w :
  mode_button_held s = false ->
  queued_events_ok
    (fun ev => ev_code ev = BTN_MODE -> ev_value ev <> 1 /\ ev_value ev <> 2)
    (device_indices s) s w ->
  let '(_, s', w') := input_monitor_check_hotkeys s w in
  current_brightness s' = current_brightness s
  /\ mode_button_held s' = false
  /\ exists extra,
       commands w' = commands w ++ extra
       /\ Forall (fun c => is_backlight c = false) extra.
Proof.
  intros Hrel Hq.
  pose proof (tick_log_inv
                (fun s1 _ => mode_button_held s1 = false
                             /\ current_brightness s1 = current_brightness s)
                (fun c => is_backlight c = false)
                (fun ev => ev_code ev = BTN_MODE ->
                           ev_value ev <> 1 /\ ev_value ev <> 2) s w) as T.
  cbv beta in T.
  assert (Hev : forall ev s1 w1,
            (ev_code ev = BTN_MODE -> ev_value ev <> 1 /\ ev_value ev <> 2) ->
            mode_button_held s1 = false
            /\ current_brightness s1 = current_brightness s ->
            (mode_button_held (flow_monitor (handle_event ev s1 w1)) = false
             /\ current_brightness (flow_monitor (handle_event ev s1 w1))
                = current_brightness s)
            /\ exists new, commands (flow_world (handle_event ev s1 w1))
                           = commands w1 ++ new
                           /\ Forall (fun c => is_backlight c = false) new).
  { intros ev s1 w1 Hok [Hm Hl].
    pose proof (handle_event_mode_released ev s1 w1 Hok Hm) as Hm'.
    pose proof (handle_event_effect ev s1 w1) as E. cbv zeta in E.
    unfold flow_brightness in E.
    destruct E as [[Hc Hk]|[[c [Hc [Hn Hk]]]|[_ [Hheld _]]]].
    - repeat split; try congruence. exists []. split; [now rewrite app_nil_r|constructor].
    - repeat split; try congruence. exists [c]. split; [exact Hc|]. now constructor.
    - congruence. }
  specialize (T ltac:(cbn; auto) ltac:(cbn; auto) Hev Hq (conj Hrel eq_refl)).
  destruct (input_monitor_check_hotkeys s w) as [[b s'] w'].
  destruct T as [[T1 T2] T3]. auto.
Qed.

Lemma mode_released_freezes_brightness_witness :
  let w := world_of []
             [(3, [ReadEvent (key_event BTN_MODE 0)]);
              (5, [ReadEvent (key_event KEY_VOLUMEDOWN 1)])] true in
  let '(_, s', w') := input_monitor_check_hotkeys monitoring w in
  current_brightness s' = current_brightness monitoring
  /\ mode_button_held s' = false
  /\ exists extra,
       commands w' = commands w ++ extra
       /\ Forall (fun c => is_backlight c = false) extra.
Proof.
  cbv zeta.
  apply (mode_released_freezes_brightness monitoring); [reflexivity|].
  intros fd ev Hfd Hin.
  change (In fd [3; 4; 5]) in Hfd. cbn in Hfd.
  destruct Hfd as [<-|[<-|[<-|[]]]]; cbn in Hin;
    repeat (destruct Hin as [Hin|Hin];
            [inversion Hin; cbn; intros; split; discriminate|]);
    destruct Hin.
Defined.

Lemma backlight_raw_steps_range v : In v backlight_raw_steps -> 10 <= v <= 255.
Proof.
  unfold backlight_raw_steps, brightness_steps, backlight_raw. cbn. lia.
Qed.

(** X7: From a level on the seven-step grid, every backlight write of a tick
    carries the raw value of a grid level, one of 10, 51, 91, 132, 173, 214
    and 255: the backlight is never written as 0 nor above 255. *)
Theorem backlight_writes_stay_in_range s w :
  In (current_brightness s) brightness_steps ->
  let '(_, s', w') := input_monitor_check_hotkeys s w in
  exists extra,
    commands w' = commands w ++ extra
    /\ forall v, In (SetBacklight v) extra ->
                 In v [10; 51; 91; 132; 173; 214; 255] /\ 10 <= v <= 255.
Proof.
  intros Hgrid.
  pose proof (tick_log_inv
                (fun s1 _ => In (current_brightness s1) brightness_steps)
                (fun c => forall v, c = SetBacklight v -> In v backlight_raw_steps)
                (fun _ => True) s w) as T.
  cbv beta in T.
  assert (Hev : forall ev s1 w1, True ->
            In (current_brightness s1) brightness_steps ->
            In (current_brightness (flow_monitor (handle_event ev s1 w1)))
               brightness_steps
            /\ exists new, commands (flow_world (handle_event ev s1 w1))
                           = commands w1 ++ new
                           /\ Forall (fun c => forall v, c = SetBacklight v ->
                                                In v backlight_raw_steps) new).
  { intros ev s1 w1 _ Hg.
    pose proof (handle_event_on_grid ev s1 w1 Hg) as Hg'.
    split; [exact Hg'|].
    pose proof (handle_event_effect ev s1 w1) as E. cbv zeta in E.
    destruct E as [[Hc _]|[[c [Hc [Hn _]]]|[Hc _]]].
    - exists []. split; [now rewrite app_nil_r|constructor].
    - exists [c]. split; [exact Hc|]. constructor; [|constructor].
      intros v ->. discriminate.
    - eexists. split; [exact Hc|]. constructor; [|constructor].
      intros v Hv. inversion Hv; subst. now apply in_map. }
  specialize (T ltac:(auto) ltac:(auto) Hev
                ltac:(intros fd ev _ _; exact Logic.I) Hgrid).
  destruct (input_monitor_check_hotkeys s w) as [[b s'] w'].
  destruct T as [_ [extra [Hc Hall]]].
  exists extra. split; [exact Hc|]. intros v Hin.
  rewrite Forall_forall in Hall. specialize (Hall _ Hin v eq_refl).
  split; [exact Hall|now apply backlight_raw_steps_range].
Qed.

Lemma backlight_writes_stay_in_range_witness :
  let s := set_mode_button_held true monitoring in
  let w := world_of []
             [(5, [ReadEvent (key_event KEY_VOLUMEUP 1);
                   ReadEvent (key_event KEY_VOLUMEUP 1);
                   ReadEvent (key_event KEY_VOLUMEUP 1);
                   ReadEvent (key_event KEY_VOLUMEUP 1)])] true in
  In (current_brightness s) brightness_steps
  /\ commands (snd (input_monitor_check_hotkeys s w))
     = [SetBacklight 173; SetBacklight 214; SetBacklight 255]
  /\ let '(_, s', w') := input_monitor_check_hotkeys s w in
     exists extra,
       commands w' = commands w ++ extra
       /\ forall v, In (SetBacklight v) extra ->
                    In v [10; 51; 91; 132; 173; 214; 255] /\ 10 <= v <= 255.
Proof.
  cbv zeta.
  assert (Hgrid : In (current_brightness (set_mode_button_held true monitoring))
                     brightness_steps) by (cbn; tauto).
  split; [exact Hgrid|]. split; [reflexivity|].
  apply (backlight_writes_stay_in_range (set_mode_button_held true monitoring)).
  exact Hgrid.
Defined.

End BacklightCommands.


Section ButtonLevels.

Lemma handle_event_levels ev s w s' w' :
  handle_event ev s w = Next s' w' ->
  mode_button_held s' = mode_level (mode_button_held s) ev
  /\ power_button_held s' = power_level (power_button_held s) ev.
Proof.
  unfold mode_level, power_level, class_ok. unfold_handlers.
  destruct (ev_type ev =? EV_KEY), (ev_type ev =? EV_SW); cbn [negb andb orb].
  4: { intros H; inversion H; subst; auto. }
  all: destruct (Z.eqb_spec (ev_code ev) BTN_MODE) as [Hm|Hm];
    [rewrite Hm; cbn; intros H; inversion H; subst; cbn; auto|].
  all: destruct (Z.eqb_spec (ev_code ev) KEY_POWER) as [Hp|Hp];
    [cbn [andb];
     destruct (Z.eqb_spec (ev_value ev) 1) as [H1|H1];
     [rewrite H1; cbn; destruct (power_button_held s) eqn:Hh; cbn;
      intros H; inversion H; subst; cbn; auto
     |destruct (Z.eqb_spec (ev_value ev) 0) as [H0|H0]; cbn;
      [destruct (power_button_held s) eqn:Hh; cbn;
       [split_ifs; intros H; inversion H; subst; cbn; auto
       |intros H; inversion H; subst; cbn; auto]
      |intros H; inversion H; subst; cbn; auto]]
    |].
  all: cbn [andb]; split_ifs; intros H; inversion H; subst; cbn; auto.
Qed.

Lemma drain_levels fd q s w s' w' :
  drain fd q s w = Next s' w' ->
  mode_button_held s' = fold_left mode_level (events_read q) (mode_button_held s)
  /\ power_button_held s'
     = fold_left power_level (events_read q) (power_button_held s).
Proof.
  revert s w. induction q as [|[ev|e] q IH]; cbn [drain events_read fold_left];
    intros s w H.
  - inversion H; subst; auto.
  - destruct (handle_event ev s (set_pending fd q w)) as [s1 w1|] eqn:E;
      [|discriminate].
    apply handle_event_levels in E. destruct E as [E1 E2].
    rewrite <- E1, <- E2. eapply IH; eassumption.
  - inversion H; subst; auto.
Qed.

Lemma flat_map_agree {A B} (f g : A -> list B) (l : list A) :
  (forall a, In a l -> f a = g a) -> flat_map f l = flat_map g l.
Proof.
  induction l as [|a l IH]; cbn; intros H; [reflexivity|].
  rewrite (H a) by now left. rewrite IH; [reflexivity|].
  intros a' Ha'. apply H. now right.
Qed.

Lemma tick_events_cons i idx s w :
  0 <= nth i (input_fds s) (-1) ->
  tick_events (i :: idx) s w
  = events_read (pending w (nth i (input_fds s) (-1))) ++ tick_events idx s w.
Proof.
  intros H. unfold tick_events. rewrite fds_at_cons.
  destruct (Z.leb_spec 0 (nth i (input_fds s) (-1))); [reflexivity|lia].
Qed.

Lemma tick_events_skip i idx s w :
  nth i (input_fds s) (-1) < 0 ->
  tick_events (i :: idx) s w = tick_events idx s w.
Proof.
  intros H. unfold tick_events. rewrite fds_at_cons.
  destruct (Z.leb_spec 0 (nth i (input_fds s) (-1))); [lia|reflexivity].
Qed.

Lemma poll_levels idx s w s' w' :
  poll_devices idx s w = Next s' w' ->
  NoDup (fds_at idx s) ->
  mode_button_held s'
    = fold_left mode_level (tick_events idx s w) (mode_button_held s)
  /\ power_button_held s'
     = fold_left power_level (tick_events idx s w) (power_button_held s).
Proof.
  revert s w. induction idx as [|i idx IH]; intros s w H Hnd.
  - cbn in H. inversion H; subst. auto.
  - cbn [poll_devices] in H. rewrite fds_at_cons in Hnd.
    destruct (Z.ltb_spec (nth i (input_fds s) (-1)) 0) as [Hneg|Hpos].
    + rewrite tick_events_skip by assumption.
      destruct (Z.leb_spec 0 (nth i (input_fds s) (-1))); [lia|]. now apply IH.
    + rewrite tick_events_cons by assumption.
      destruct (Z.leb_spec 0 (nth i (input_fds s) (-1))); [|lia].
      set (fd0 := nth i (input_fds s) (-1)) in *.
      destruct (drain fd0 (pending w fd0) s w) as [s1 w1|] eqn:E; [|discriminate].
      pose proof (drain_pending _ _ _ _ _ _ E eq_refl) as Hp.
      pose proof (drain_levels _ _ _ _ _ _ E) as [L1 L2].
      apply drain_fds in E. destruct E as [Hfds _].
      inversion Hnd as [|? ? Hnotin Hnd']; subst.
      assert (Hsame : tick_events idx s1 w1 = tick_events idx s w).
      { unfold tick_events. rewrite (fds_at_ext idx s s1 Hfds).
        apply flat_map_agree. intros fd Hin. rewrite Hp.
        destruct (Z.eqb_spec fd fd0) as [->|_]; [contradiction|reflexivity]. }
      rewrite <- (fds_at_ext idx s s1 Hfds) in Hnd'.
      destruct (IH s1 w1 H Hnd') as [M1 M2].
      rewrite !fold_left_app, <- L1, <- L2, <- Hsame. auto.
Qed.

(** X4: After a call that does not leave through the early return, each held
    flag is the level of the last event of its button among the events the
    tick read, in reading order, or its old value when there was none:
    malformed sequences (two presses, two releases) are settled by the last
    edge. *)
Theorem held_flags_follow_last_edge s w b s' w' :
  input_monitor_check_hotkeys s w = (b, s', w') ->
  NoDup (polled_fds s) ->
  b = false \/ power_button_held s' = true ->
  mode_button_held s'
    = fold_left mode_level (tick_events (device_indices s) s w)
                (mode_button_held s)
  /\ power_button_held s'
     = fold_left power_level (tick_events (device_indices s) s w)
                 (power_button_held s).
Proof.
  unfold input_monitor_check_hotkeys, polled_fds. intros Hcall Hnd Hpath.
  destruct (poll_devices (device_indices s) s w) as [s1 w1|b1 s1 w1] eqn:E.
  - pose proof (poll_levels _ _ _ _ _ E Hnd) as L.
    assert (Hs : s' = s1).
    { destruct (power_button_held s1); [|now inversion Hcall].
      cbn in Hcall. destruct (_ >=? _); now inversion Hcall. }
    subst s'. exact L.
  - apply poll_return_released in E. destruct E as [-> Hrel].
    inversion Hcall; subst. destruct Hpath; congruence.
Qed.

Lemma held_flags_follow_last_edge_witness :
  let w := world_of [1000; 1100; 1200]
             [(3, [ReadEvent (key_event BTN_MODE 1); ReadEvent (key_event BTN_MODE 2)]);
              (4, [ReadEvent (key_event KEY_POWER 1);
                   ReadEvent (key_event KEY_POWER 1)])] true in
  let r := input_monitor_check_hotkeys monitoring w in
  NoDup (polled_fds monitoring)
  /\ fst (fst r) = false
  /\ mode_button_held (snd (fst r)) = true
  /\ power_button_held (snd (fst r)) = true
  /\ power_press_time (snd (fst r)) = at_ms 1000.
Proof.
  cbv zeta.
  assert (Hnd : NoDup (polled_fds monitoring)).
  { change (NoDup [3; 4; 5]).
    repeat (constructor; [cbn; intuition discriminate|]). constructor. }
  split; [exact Hnd|]. split; [reflexivity|].
  destruct (held_flags_follow_last_edge monitoring
              (world_of [1000; 1100; 1200]
                 [(3, [ReadEvent (key_event BTN_MODE 1);
                       ReadEvent (key_event BTN_MODE 2)]);
                  (4, [ReadEvent (key_event KEY_POWER 1);
                       ReadEvent (key_event KEY_POWER 1)])] true)
              _ _ _ eq_refl Hnd (or_introl eq_refl)) as [Hm Hp].
  split; [exact Hm|]. split; [exact Hp|reflexivity].
Defined.

End ButtonLevels.


Section Timing.

(** X1: The millisecond distance the code computes is within one millisecond of
    the real distance of two normalized readings: rounded down when the
    nanosecond field of the later reading is not below the other, rounded up
    when it is, and exact on whole milliseconds. *)
Theorem elapsed_ms_within_one_ms a b :
  normalized a -> normalized b ->
  let real := nanoseconds a - nanoseconds b in
  Z.abs (elapsed_ms a b * 1000000 - real) < 1000000
  /\ (tv_nsec b <= tv_nsec a -> elapsed_ms a b * 1000000 <= real)
  /\ (tv_nsec a < tv_nsec b -> real <= elapsed_ms a b * 1000000)
  /\ (forall k, real = k * 1000000 -> elapsed_ms a b = k).
Proof.
  unfold normalized, nanoseconds, elapsed_ms. intros Ha Hb. cbv zeta.
  pose proof (Z.quot_rem' (tv_nsec a - tv_nsec b) 1000000) as Hqr.
  destruct (Z_le_gt_dec 0 (tv_nsec a - tv_nsec b)) as [Hpos|Hneg].
  - pose proof (Z.rem_bound_pos (tv_nsec a - tv_nsec b) 1000000
                  Hpos ltac:(lia)) as Hr.
    repeat split; intros; lia.
  - pose proof (Z.rem_bound_pos (- (tv_nsec a - tv_nsec b)) 1000000
                  ltac:(lia) ltac:(lia)) as Hr.
    rewrite Z.rem_opp_l' in Hr. repeat split; intros; lia.
Qed.

Lemma elapsed_ms_within_one_ms_witness :
  let a := mkTimespec 2 749000000 in
  let b := mkTimespec 0 999999999 in
  normalized a /\ normalized b
  /\ elapsed_ms a b = 1750
  /\ Z.abs (elapsed_ms a b * 1000000 - (nanoseconds a - nanoseconds b)) < 1000000
  /\ nanoseconds a - nanoseconds b <= elapsed_ms a b * 1000000.
Proof.
  cbv zeta.
  assert (Ha : normalized (mkTimespec 2 749000000))
    by (unfold normalized; cbn; lia).
  assert (Hb : normalized (mkTimespec 0 999999999))
    by (unfold normalized; cbn; lia).
  destruct (elapsed_ms_within_one_ms _ _ Ha Hb) as [H1 [_ [H3 _]]].
  split; [exact Ha|]. split; [exact Hb|]. split; [reflexivity|].
  split; [exact H1|]. apply H3. reflexivity.
Defined.

End Timing.

Section Sequences.

(** X9: Two short presses in a row: the first suspends, the second, released
    less than 500 ms after the first suspend came back, is dropped. The four
    events run the suspend command once. *)
Theorem second_short_press_is_debounced fd s w :
  power_button_held s = false ->
  elapsed_ms (reading w 1) (reading w 0) < LONG_PRESS_MS ->
  WAKE_DEBOUNCE_MS <= elapsed_ms (reading w 1) (last_wake_time s) ->
  elapsed_ms (reading w 4) (reading w 3) < LONG_PRESS_MS ->
  elapsed_ms (reading w 4) (reading w 2) < WAKE_DEBOUNCE_MS ->
  exists s' w',
    drain fd (queue_of [key_event KEY_POWER 1; key_event KEY_POWER 0;
                        key_event KEY_POWER 1; key_event KEY_POWER 0]) s w
      = Next s' w'
    /\ commands w' = commands w ++ [Suspend]
    /\ last_wake_time s' = reading w 2
    /\ power_button_held s' = false
    /\ clock_reads w' = (5 + clock_reads w)%nat.
Proof.
  unfold reading. cbn [Nat.add]. intros Hheld H1 H2 H3 H4.
  unfold queue_of. cbn [map drain].
  rewrite power_press_outcome by exact Hheld.
  rewrite power_release_outcome by reflexivity.
  unfold release_outcome, tick_clock, now, clock_gettime, system.
  cbn [snd clock clock_reads set_pending power_press_time last_wake_time
       set_power_button_held set_power_press_time commands pending backlight_on].
  destruct (Z.geb_spec (elapsed_ms (clock w (S (clock_reads w)))
                                   (clock w (clock_reads w))) LONG_PRESS_MS);
    [lia|].
  destruct (Z.ltb_spec (elapsed_ms (clock w (S (clock_reads w)))
                                   (last_wake_time s)) WAKE_DEBOUNCE_MS);
    [lia|].
  rewrite power_press_outcome by reflexivity.
  rewrite power_release_outcome by reflexivity.
  unfold release_outcome, tick_clock, now, clock_gettime, system.
  cbn [snd clock clock_reads set_pending power_press_time last_wake_time
       set_power_button_held set_power_press_time set_last_wake_time
       commands pending backlight_on].
  destruct (Z.geb_spec (elapsed_ms (clock w (S (S (S (S (clock_reads w))))))
                                   (clock w (S (S (S (clock_reads w))))))
                       LONG_PRESS_MS); [lia|].
  destruct (Z.ltb_spec (elapsed_ms (clock w (S (S (S (S (clock_reads w))))))
                                   (clock w (S (S (clock_reads w)))))
                       WAKE_DEBOUNCE_MS); [|lia].
  eexists. eexists. split; [reflexivity|]. cbn. auto.
Qed.

Lemma second_short_press_is_debounced_witness :
  let w := world_of [10000; 10100; 10400; 10600; 10700] [] true in
  exists s' w',
    drain 4 (queue_of [key_event KEY_POWER 1; key_event KEY_POWER 0;
                       key_event KEY_POWER 1; key_event KEY_POWER 0])
          monitoring w
      = Next s' w'
    /\ commands w' = commands w ++ [Suspend]
    /\ last_wake_time s' = reading w 2
    /\ power_button_held s' = false
    /\ clock_reads w' = (5 + clock_reads w)%nat.
Proof.
  cbv zeta.
  apply (second_short_press_is_debounced 4 monitoring
           (world_of [10000; 10100; 10400; 10600; 10700] [] true));
    try reflexivity.
  vm_compute; discriminate.
Defined.

(** X10: A lid close anchors the debounce window of the power button: a short
    press released less than 500 ms after the lid suspend came back is
    dropped. *)
Theorem short_press_after_lid_close_is_debounced fd s w :
  power_button_held s = false ->
  elapsed_ms (reading w 2) (reading w 1) < LONG_PRESS_MS ->
  elapsed_ms (reading w 2) (reading w 0) < WAKE_DEBOUNCE_MS ->
  exists s' w',
    drain fd (queue_of [lid_event 1; key_event KEY_POWER 1;
                        key_event KEY_POWER 0]) s w
      = Next s' w'
    /\ commands w' = commands w ++ [Suspend]
    /\ last_wake_time s' = reading w 0
    /\ power_button_held s' = false.
Proof.
  unfold reading. cbn [Nat.add]. intros Hheld H1 H2.
  unfold queue_of. cbn [map drain].
  change (handle_event (lid_event 1) s
            (set_pending fd [ReadEvent (key_event KEY_POWER 1);
                             ReadEvent (key_event KEY_POWER 0)] w))
    with (Next (set_last_wake_time (clock w (clock_reads w)) s)
               (tick_clock (system Suspend
                  (set_pending fd [ReadEvent (key_event KEY_POWER 1);
                                   ReadEvent (key_event KEY_POWER 0)] w)))).
  cbv iota beta.
  rewrite power_press_outcome by exact Hheld.
  rewrite power_release_outcome by reflexivity.
  unfold release_outcome, tick_clock, now, clock_gettime, system.
  cbn [snd clock clock_reads set_pending power_press_time last_wake_time
       set_power_button_held set_power_press_time set_last_wake_time
       commands pending backlight_on].
  destruct (Z.geb_spec (elapsed_ms (clock w (S (S (clock_reads w))))
                                   (clock w (S (clock_reads w))))
                       LONG_PRESS_MS); [lia|].
  destruct (Z.ltb_spec (elapsed_ms (clock w (S (S (clock_reads w))))
                                   (clock w (clock_reads w)))
                       WAKE_DEBOUNCE_MS); [|lia].
  eexists. eexists. split; [reflexivity|]. cbn. auto.
Qed.

Lemma short_press_after_lid_close_is_debounced_witness :
  let w := world_of [10000; 10200; 10300] [] true in
  exists s' w',
    drain 5 (queue_of [lid_event 1; key_event KEY_POWER 1;
                       key_event KEY_POWER 0]) monitoring w
      = Next s' w'
    /\ commands w' = commands w ++ [Suspend]
    /\ last_wake_time s' = reading w 0
    /\ power_button_held s' = false.
Proof.
  cbv zeta.
  apply (short_press_after_lid_close_is_debounced 5 monitoring
           (world_of [10000; 10200; 10300] [] true)); reflexivity.
Defined.

(** X8: With the mode button held and the backlight on, one step up followed by
    one step down (below the top level), or one step down followed by one
    step up (above the bottom level), brings the brightness back to where it
    was; the backlight is written twice, the second time with the raw value
    of the original level. *)
Theorem brightness_steps_undo_each_other fd s w :
  mode_button_held s = true ->
  backlight_on w = true ->
  In (current_brightness s) brightness_steps ->
  let b := current_brightness s in
  (b < 100 ->
   exists s' w',
     drain fd (queue_of [key_event KEY_VOLUMEUP 1; key_event KEY_VOLUMEDOWN 1]) s w
       = Next s' w'
     /\ current_brightness s' = b
     /\ commands w' = commands w ++ [SetBacklight (backlight_raw (b + 16));
                                     SetBacklight (backlight_raw b)])
  /\ (4 < b ->
      exists s' w',
        drain fd (queue_of [key_event KEY_VOLUMEDOWN 1; key_event KEY_VOLUMEUP 1]) s w
          = Next s' w'
        /\ current_brightness s' = b
        /\ commands w' = commands w ++ [SetBacklight (backlight_raw (b - 16));
                                        SetBacklight (backlight_raw b)]).
Proof.
  intros Hmode Hbl Hgrid b.
  assert (Hrange : 4 <= b <= 100).
  { subst b. revert Hgrid. unfold brightness_steps. cbn. lia. }
  split; intros Hb; unfold queue_of; cbn [map drain]; unfold_handlers;
    cbn -[Z.add Z.sub backlight_raw Z.ltb Z.gtb];
    rewrite Hmode, Hbl; cbn -[Z.add Z.sub backlight_raw Z.ltb Z.gtb]; fold b.
  - destruct (Z.ltb_spec b 100); [|lia].
    cbn -[Z.add Z.sub backlight_raw Z.ltb Z.gtb]. rewrite Hmode.
    cbn -[Z.add Z.sub backlight_raw Z.ltb Z.gtb].
    destruct (Z.gtb_spec (b + 16) 4); [|lia].
    eexists. eexists. split; [reflexivity|].
    cbn -[Z.add Z.sub backlight_raw].
    replace (b + 16 - 16) with b by lia.
    split; [reflexivity|]. now rewrite <- app_assoc.
  - destruct (Z.gtb_spec b 4); [|lia].
    cbn -[Z.add Z.sub backlight_raw Z.ltb Z.gtb]. rewrite Hmode.
    cbn -[Z.add Z.sub backlight_raw Z.ltb Z.gtb].
    destruct (Z.ltb_spec (b - 16) 100); [|lia].
    eexists. eexists. split; [reflexivity|].
    cbn -[Z.add Z.sub backlight_raw].
    replace (b - 16 + 16) with b by lia.
    split; [reflexivity|]. now rewrite <- app_assoc.
Qed.

Lemma brightness_steps_undo_each_other_witness :
  let s := set_mode_button_held true monitoring in
  let w := world_of [] [] true in
  exists s' w',
    drain 5 (queue_of [key_event KEY_VOLUMEUP 1; key_event KEY_VOLUMEDOWN 1]) s w
      = Next s' w'
    /\ current_brightness s' = 52
    /\ commands w' = commands w ++ [SetBacklight (backlight_raw (52 + 16));
                                    SetBacklight (backlight_raw 52)].
Proof.
  cbv zeta.
  assert (Hgrid : In (current_brightness (set_mode_button_held true monitoring))
                     brightness_steps) by (cbn; tauto).
  apply (proj1 (brightness_steps_undo_each_other 5
                  (set_mode_button_held true monitoring)
                  (world_of [] [] true) eq_refl eq_refl Hgrid)).
  reflexivity.
Defined.

(** X11: A second press edge while the button is held does not restart the hold:
    it reads no clock, and the release is timed against the first press. *)
Theorem repeated_press_keeps_first_press_time fd s w :
  power_button_held s = false ->
  LONG_PRESS_MS <= elapsed_ms (reading w 1) (reading w 0) ->
  exists s' w',
    drain fd (queue_of [key_event KEY_POWER 1; key_event KEY_POWER 1;
                        key_event KEY_POWER 0]) s w
      = Return true s' w'
    /\ power_press_time s' = reading w 0
    /\ clock_reads w' = (2 + clock_reads w)%nat
    /\ commands w' = commands w.
Proof.
  unfold reading. cbn [Nat.add]. intros Hheld Hlong.
  unfold queue_of. cbn [map drain].
  rewrite power_press_outcome by exact Hheld.
  change (handle_event (key_event KEY_POWER 1)
            (set_power_button_held true
               (set_power_press_time
                  (now (set_pending fd [ReadEvent (key_event KEY_POWER 1);
                                        ReadEvent (key_event KEY_POWER 0)] w)) s))
            (set_pending fd [ReadEvent (key_event KEY_POWER 0)]
               (tick_clock
                  (set_pending fd [ReadEvent (key_event KEY_POWER 1);
                                   ReadEvent (key_event KEY_POWER 0)] w))))
    with (Next
            (set_power_button_held true
               (set_power_press_time (clock w (clock_reads w)) s))
            (set_pending fd [ReadEvent (key_event KEY_POWER 0)]
               (tick_clock
                  (set_pending fd [ReadEvent (key_event KEY_POWER 1);
                                   ReadEvent (key_event KEY_POWER 0)] w)))).
  cbv iota beta.
  rewrite power_release_outcome by reflexivity.
  unfold release_outcome, tick_clock, now, clock_gettime, system.
  cbn [snd clock clock_reads set_pending power_press_time last_wake_time
       set_power_button_held set_power_press_time commands pending backlight_on].
  destruct (Z.geb_spec (elapsed_ms (clock w (S (clock_reads w)))
                                   (clock w (clock_reads w))) LONG_PRESS_MS);
    [|lia].
  eexists. eexists. split; [reflexivity|]. cbn. auto.
Qed.

Lemma repeated_press_keeps_first_press_time_witness :
  let w := world_of [1000; 3000] [] true in
  exists s' w',
    drain 4 (queue_of [key_event KEY_POWER 1; key_event KEY_POWER 1;
                       key_event KEY_POWER 0]) monitoring w
      = Return true s' w'
    /\ power_press_time s' = reading w 0
    /\ clock_reads w' = (2 + clock_reads w)%nat
    /\ commands w' = commands w.
Proof.
  cbv zeta.
  apply (repeated_press_keeps_first_press_time 4 monitoring
           (world_of [1000; 3000] [] true)); [reflexivity|].
  vm_compute; discriminate.
Defined.

(** Unless the mode button is held while the backlight is on, a volume-key
    press adjusts the mixer volume by one step in its direction, once, and
    changes no static; this holds for either event class that passes the
    filter. *)
Theorem volume_press_adjusts_volume_when_not_gated ev s w :
  class_ok ev = true ->
  ev_value ev = 1 ->
  mode_button_held s && backlight_on w = false ->
  (ev_code ev = KEY_VOLUMEUP -> handle_event ev s w = Next s (system VolumeUp w))
  /\ (ev_code ev = KEY_VOLUMEDOWN ->
      handle_event ev s w = Next s (system VolumeDown w)).
Proof.
  unfold class_ok. intros Hclass Hval Hgate.
  assert (Hfilter : negb (ev_type ev =? EV_KEY) && negb (ev_type ev =? EV_SW) = false).
  { destruct (ev_type ev =? EV_KEY), (ev_type ev =? EV_SW);
      cbn in *; congruence. }
  split; intros Hcode; unfold handle_event, on_volume_up, on_volume_down;
    rewrite Hfilter, Hcode, Hval, Hgate; reflexivity.
Qed.

Lemma volume_press_adjusts_volume_when_not_gated_witness :
  handle_event (key_event KEY_VOLUMEDOWN 1) monitoring (world_of [] [] true)
  = Next monitoring (system VolumeDown (world_of [] [] true)).
Proof.
  apply (volume_press_adjusts_volume_when_not_gated
           (key_event KEY_VOLUMEDOWN 1) monitoring (world_of [] [] true));
    reflexivity.
Defined.

End Sequences.


(** * Further properties of the discovery *)

Section Descriptors.

Lemma scan_entries_open_fds name dfd es sc l out :
  let r := scan_entries name dfd es (mkDevfs sc (dfd :: l) out) in
  open_fds (snd r) = if fst r >=? 0 then fst r :: l else l.
Proof.
  revert out. induction es as [|e es IH]; intros out; cbn zeta.
  - cbn. now rewrite Z.eqb_refl.
  - cbn [scan_entries].
    destruct (negb (String.prefix "event" (d_name e))); [apply IH|].
    destruct (d_open e) as [n|]; [|apply IH].
    destruct (strstr (reported_name e) name).
    + cbn. destruct (Z.geb_spec (Z.of_nat n) 0); [|lia].
      destruct (Z.eqb_spec (Z.of_nat n) dfd) as [->|_];
        [reflexivity|now rewrite Z.eqb_refl].
    + unfold fd_closed, fd_opened. cbn [scans output open_fds].
      rewrite close_after_open. apply IH.
Qed.

Lemma find_device_open_fds name d :
  let r := find_device_by_name name d in
  open_fds (snd r) = if fst r >=? 0 then fst r :: open_fds d else open_fds d.
Proof.
  unfold find_device_by_name.
  destruct (scans d) as [|[[dfd es]|] rest]; cbn zeta; try reflexivity.
  apply scan_entries_open_fds.
Qed.

Lemma store_length n fd fds : List.length (store n fd fds) = List.length fds.
Proof.
  revert n. induction fds as [|x l IH]; intros [|n]; cbn; auto.
Qed.

Lemma firstn_store n fd fds :
  (n < List.length fds)%nat ->
  firstn (S n) (store n fd fds) = firstn n fds ++ [fd].
Proof.
  revert n. induction fds as [|x l IH]; intros [|n] H; cbn in *; try lia.
  - reflexivity.
  - f_equal. apply IH. lia.
Qed.

Lemma init_loop_descriptors names s d base :
  0 <= num_devices s ->
  num_devices s + Z.of_nat (List.length names) <= Z.of_nat (List.length (input_fds s)) ->
  Z.of_nat (List.length (input_fds s)) <= MAX_INPUT_DEVICES ->
  open_fds d = rev (held_fds s) ++ base ->
  Forall (fun fd => 0 <= fd) (held_fds s) ->
  let r := init_loop names s d in
  open_fds (snd r) = rev (held_fds (fst r)) ++ base
  /\ Forall (fun fd => 0 <= fd) (held_fds (fst r))
  /\ num_devices s <= num_devices (fst r) <= Z.of_nat (List.length (input_fds s))
  /\ List.length (input_fds (fst r)) = List.length (input_fds s).
Proof.
  revert s d. induction names as [|nm rest IH]; intros s d Hn Hroom Hmax Hopen Hall;
    cbn zeta.
  - cbn in *. repeat split; auto; lia.
  - cbn [init_loop]. cbn [List.length] in Hroom.
    pose proof (find_device_open_fds nm d) as F. cbn zeta in F.
    destruct (find_device_by_name nm d) as [fd d1]. cbn [fst snd] in F.
    destruct (Z.geb_spec fd 0) as [Hfd|Hfd]; cbn [andb].
    + destruct (Z.ltb_spec (num_devices s) MAX_INPUT_DEVICES); [|lia].
      remember (set_devices (store (Z.to_nat (num_devices s)) fd (input_fds s))
                            (num_devices s + 1) s) as s1 eqn:Es1.
      assert (Hnum : num_devices s1 = num_devices s + 1) by now subst s1.
      assert (Hlen : List.length (input_fds s1) = List.length (input_fds s)).
      { subst s1. cbn. apply store_length. }
      assert (Hheld : held_fds s1 = held_fds s ++ [fd]).
      { unfold held_fds. rewrite Hnum. subst s1. cbn [input_fds set_devices].
        replace (Z.to_nat (num_devices s + 1)) with (S (Z.to_nat (num_devices s)))
          by lia.
        apply firstn_store. lia. }
      assert (Hopen1 : open_fds d1 = rev (held_fds s1) ++ base).
      { rewrite Hheld, rev_app_distr, F, Hopen. reflexivity. }
      assert (Hall1 : Forall (fun fd => 0 <= fd) (held_fds s1)).
      { rewrite Hheld. apply Forall_app. split; [exact Hall|].
        constructor; [lia|constructor]. }
      destruct (IH s1 d1 ltac:(lia) ltac:(lia) ltac:(lia) Hopen1 Hall1)
        as [I1 [I2 [I3 I4]]].
      repeat split; auto; lia.
    + specialize (IH s (print (WarnNotFound nm) d1)).
      cbn [print open_fds] in IH.
      destruct IH as [I1 [I2 [I3 I4]]]; try lia; try assumption.
      * now rewrite F.
      * repeat split; auto; lia.
Qed.

Lemma remove_first_app x P base :
  In x P -> remove_first x (P ++ base) = remove_first x P ++ base.
Proof.
  induction P as [|y P IH]; cbn; intros H; [contradiction|].
  destruct (Z.eqb_spec y x) as [_|Hne]; [reflexivity|].
  destruct H as [H|H]; [contradiction|]. now rewrite IH.
Qed.

Lemma remove_first_perm x P : In x P -> Permutation P (x :: remove_first x P).
Proof.
  induction P as [|y P IH]; cbn; intros H; [contradiction|].
  destruct (Z.eqb_spec y x) as [->|Hne]; [reflexivity|].
  destruct H as [H|H]; [contradiction|].
  rewrite (IH H) at 1. apply perm_swap.
Qed.

Lemma close_slots_restores n fds d P base :
  open_fds d = P ++ base ->
  Permutation P (firstn n fds) ->
  Forall (fun fd => 0 <= fd) (firstn n fds) ->
  open_fds (close_slots n fds d) = base.
Proof.
  revert fds d P. induction n as [|n IH]; intros fds d P Hopen Hperm Hall.
  - cbn in *. apply Permutation_sym, Permutation_nil in Hperm. now subst.
  - destruct fds as [|fd rest].
    + cbn in *. apply Permutation_sym, Permutation_nil in Hperm. now subst.
    + cbn [close_slots]. cbn [firstn] in Hperm, Hall.
      inversion Hall as [|? ? Hfd Hall']; subst.
      destruct (Z.geb_spec fd 0); [|lia].
      assert (Hin : In fd P).
      { apply (Permutation_in fd (Permutation_sym Hperm)). now left. }
      apply (IH rest (fd_closed fd d) (remove_first fd P)).
      * cbn. rewrite Hopen. now apply remove_first_app.
      * apply (Permutation_cons_inv (a := fd)).
        rewrite <- (remove_first_perm fd P Hin). exact Hperm.
      * exact Hall'.
Qed.

Lemma check_hotkeys_keeps_slots s w :
  input_fds (snd (fst (input_monitor_check_hotkeys s w))) = input_fds s
  /\ num_devices (snd (fst (input_monitor_check_hotkeys s w))) = num_devices s.
Proof.
  unfold input_monitor_check_hotkeys.
  pose proof (poll_devices_fds (device_indices s) s w) as F.
  destruct (poll_devices (device_indices s) s w) as [s' w'|b s' w'].
  - destruct (power_button_held s'); [|exact F].
    cbn. destruct (_ >=? _); exact F.
  - destruct F as [_ F]. exact F.
Qed.

Lemma poll_all_keeps_slots ws s :
  input_fds (poll_all ws s) = input_fds s
  /\ num_devices (poll_all ws s) = num_devices s.
Proof.
  unfold poll_all. revert s. induction ws as [|w ws IH]; intros s; cbn; [auto|].
  destruct (IH (snd (fst (input_monitor_check_hotkeys s w)))) as [H1 H2].
  destruct (check_hotkeys_keeps_slots s w) as [K1 K2].
  split; congruence.
Qed.

Lemma init_descriptors s d :
  List.length (input_fds s) = 3%nat ->
  let r := input_monitor_init s d in
  open_fds (snd r) = rev (held_fds (snd (fst r))) ++ open_fds d
  /\ Forall (fun fd => 0 <= fd) (held_fds (snd (fst r)))
  /\ 0 <= num_devices (snd (fst r)) <= MAX_INPUT_DEVICES
  /\ List.length (input_fds (snd (fst r))) = 3%nat.
Proof.
  intros Hlen. unfold input_monitor_init.
  pose proof (init_loop_descriptors device_names
                (set_devices (input_fds s) 0 s) d (open_fds d)) as H.
  cbn [num_devices input_fds set_devices] in H. rewrite Hlen in H.
  specialize (H ltac:(lia) ltac:(cbn; lia) ltac:(unfold MAX_INPUT_DEVICES; lia)
                eq_refl ltac:(constructor)).
  cbn zeta in H.
  destruct (init_loop device_names (set_devices (input_fds s) 0 s) d) as [s1 d1].
  cbn [fst snd] in H. destruct H as [H1 [H2 [H3 H4]]].
  unfold MAX_INPUT_DEVICES.
  destruct (num_devices s1 =? 0); cbn; repeat split; auto; lia.
Qed.

(** X12: Initialisation opens and keeps exactly the descriptors it stores: after
    the call the process holds, on top of what it held before, the
    descriptors of the first [num_devices] slots and nothing else; every
    other node opened while scanning and the directory itself are closed
    again. The slots in use all hold real descriptors. *)
Theorem init_keeps_only_stored_descriptors s d :
  List.length (input_fds s) = 3%nat ->
  let '(_, s', d') := input_monitor_init s d in
  open_fds d' = rev (held_fds s') ++ open_fds d
  /\ Forall (fun fd => 0 <= fd) (held_fds s')
  /\ List.length (held_fds s') = Z.to_nat (num_devices s')
  /\ 0 <= num_devices s' <= MAX_INPUT_DEVICES.
Proof.
  intros Hlen. pose proof (init_descriptors s d Hlen) as H. cbn zeta in H.
  destruct (input_monitor_init s d) as [[b s'] d']. cbn [fst snd] in H.
  destruct H as [H1 [H2 [H3 H4]]]. repeat split; try assumption; try lia.
  unfold held_fds. rewrite length_firstn, H4. unfold MAX_INPUT_DEVICES in H3. lia.
Qed.

Lemma init_keeps_only_stored_descriptors_witness :
  List.length (input_fds initial_monitor) = 3%nat
  /\ let '(_, s', d') := input_monitor_init initial_monitor example_devfs in
     held_fds s' = [8; 9]
     /\ open_fds d' = rev (held_fds s') ++ open_fds example_devfs
     /\ Forall (fun fd => 0 <= fd) (held_fds s')
     /\ List.length (held_fds s') = Z.to_nat (num_devices s')
     /\ 0 <= num_devices s' <= MAX_INPUT_DEVICES.
Proof.
  split; [reflexivity|].
  split; [reflexivity|].
  exact (init_keeps_only_stored_descriptors initial_monitor example_devfs eq_refl).
Defined.

(** X13: No descriptor leaks over the life of the monitor: initialisation, any
    number of polls and then cleanup leave the process with the descriptors
    it held before the initialisation, and the monitor with no device. *)
Theorem init_polls_cleanup_restore_descriptors s d ws :
  List.length (input_fds s) = 3%nat ->
  let '(_, s1, d1) := input_monitor_init s d in
  let s2 := poll_all ws s1 in
  open_fds (input_monitor_cleanup_env s2 d1) = open_fds d
  /\ num_devices (input_monitor_cleanup s2) = 0
  /\ held_fds (input_monitor_cleanup s2) = [].
Proof.
  intros Hlen. pose proof (init_descriptors s d Hlen) as H. cbn zeta in H.
  destruct (input_monitor_init s d) as [[b s1] d1]. cbn [fst snd] in H.
  destruct H as [H1 [H2 _]]. cbn zeta.
  destruct (poll_all_keeps_slots ws s1) as [K1 K2].
  split; [|split; reflexivity].
  unfold input_monitor_cleanup_env. rewrite K1, K2.
  apply (close_slots_restores _ _ _ (rev (held_fds s1))).
  - exact H1.
  - apply Permutation_sym, Permutation_rev.
  - exact H2.
Qed.

Lemma init_polls_cleanup_restore_descriptors_witness :
  let ws := [world_of [1000] [(8, [ReadEvent (key_event KEY_POWER 1)])] true;
             world_of [1100] [(9, [ReadEvent (key_event KEY_VOLUMEUP 1)])] true] in
  List.length (input_fds initial_monitor) = 3%nat
  /\ let '(_, s1, d1) := input_monitor_init initial_monitor example_devfs in
     let s2 := poll_all ws s1 in
     open_fds d1 = [9; 8; 0; 1; 2]
     /\ open_fds (input_monitor_cleanup_env s2 d1) = open_fds example_devfs
     /\ num_devices (input_monitor_cleanup s2) = 0
     /\ held_fds (input_monitor_cleanup s2) = [].
Proof.
  cbv zeta. split; [reflexivity|].
  pose proof (init_polls_cleanup_restore_descriptors initial_monitor example_devfs
                [world_of [1000] [(8, [ReadEvent (key_event KEY_POWER 1)])] true;
                 world_of [1100] [(9, [ReadEvent (key_event KEY_VOLUMEUP 1)])] true]
                eq_refl) as H.
  split; [reflexivity|exact H].
Defined.

End Descriptors.


Section Matching.

Lemma prefix_cons c a c' b :
  String.prefix (String c a) (String c' b)
  = if Ascii.ascii_dec c c' then String.prefix a b else false.
Proof. reflexivity. Qed.

Lemma prefix_iff a b :
  String.prefix a b = true <-> exists post, b = (a ++ post)%string.
Proof.
  revert b. induction a as [|c a IH]; intros b.
  - split; [intros _; now exists b|intros _; now destruct b].
  - destruct b as [|c' b].
    + split; [discriminate|intros [post H]; discriminate].
    + rewrite prefix_cons. destruct (Ascii.ascii_dec c c') as [->|Hne].
      * rewrite IH. split; intros [post H]; exists post.
        -- cbn. now rewrite H.
        -- cbn in H. now inversion H.
      * split; [discriminate|]. intros [post H]. cbn in H. congruence.
Qed.

(** [strstr] finds the needle exactly when the haystack contains it as a
    contiguous run of characters. *)
Lemma strstr_iff hay needle :
  strstr hay needle = true <->
  exists pre post, hay = (pre ++ needle ++ post)%string.
Proof.
  induction hay as [|c hay IH]; cbn [strstr].
  - rewrite orb_false_r, prefix_iff. split.
    + intros [post H]. exists EmptyString, post. exact H.
    + intros [pre [post H]]. destruct pre; cbn in H; [now exists post|discriminate].
  - rewrite orb_true_iff, prefix_iff, IH. split.
    + intros [[post H]|[pre [post H]]].
      * exists EmptyString, post. exact H.
      * exists (String c pre), post. cbn. now rewrite H.
    + intros [pre [post H]]. destruct pre as [|c' pre]; cbn in H.
      * left. now exists post.
      * right. inversion H. now exists pre, post.
Qed.

(** X14: [find_device_by_name] returns a descriptor exactly when the directory
    opens and lists an "event" node that opens and whose reported name
    contains the pattern as a contiguous, case-sensitive run of characters;
    in every other case it returns -1 and holds no descriptor more than
    before. *)
Theorem find_device_found_iff name d :
  let r := find_device_by_name name d in
  (0 <= fst r <->
   exists dfd es rest e pre post,
     scans d = Some (dfd, es) :: rest
     /\ In e es
     /\ String.prefix "event" (d_name e) = true
     /\ d_open e <> None
     /\ reported_name e = (pre ++ name ++ post)%string)
  /\ (fst r < 0 -> fst r = -1 /\ open_fds (snd r) = open_fds d).
Proof.
  cbn zeta. pose proof (find_device_spec name d) as F. cbn zeta in F.
  destruct F as [_ [_ F]].
  assert (Hres : resolves name (hd None (scans d)) = true <->
                 exists dfd es rest e pre post,
                   scans d = Some (dfd, es) :: rest
                   /\ In e es
                   /\ String.prefix "event" (d_name e) = true
                   /\ d_open e <> None
                   /\ reported_name e = (pre ++ name ++ post)%string).
  { unfold resolves. destruct (scans d) as [|[[dfd es]|] rest]; cbn [hd].
    - split; [discriminate|]. intros (? & ? & ? & ? & ? & ? & H & _). discriminate.
    - rewrite existsb_exists. split.
      + intros [e [Hin Hacc]]. unfold accepts in Hacc.
        apply andb_true_iff in Hacc. destruct Hacc as [Hacc Hstr].
        apply andb_true_iff in Hacc. destruct Hacc as [Hpre Hopen].
        apply strstr_iff in Hstr. destruct Hstr as [pre [post Hstr]].
        exists dfd, es, rest, e, pre, post. repeat split; auto.
        destruct (d_open e); [discriminate|discriminate].
      + intros (dfd' & es' & rest' & e & pre & post & Hs & Hin & Hpre & Hopen & Hn).
        inversion Hs; subst. exists e. split; [exact Hin|].
        unfold accepts. rewrite Hpre. cbn.
        destruct (d_open e); [|contradiction]. cbn.
        apply strstr_iff. now exists pre, post.
    - split; [discriminate|]. intros (? & ? & ? & ? & ? & ? & H & _). discriminate. }
  destruct (resolves name (hd None (scans d))).
  - split; [|lia]. split; [intros _; now apply Hres|intros _; exact F].
  - destruct F as [F1 F2]. split; [|auto].
    split; [lia|]. intros H. apply Hres in H. discriminate.
Qed.

Lemma find_device_found_iff_witness :
  let r := find_device_by_name "pwrkey" example_devfs in
  fst r = 4
  /\ (0 <= fst r <->
      exists dfd es rest e pre post,
        scans example_devfs = Some (dfd, es) :: rest
        /\ In e es
        /\ String.prefix "event" (d_name e) = true
        /\ d_open e <> None
        /\ reported_name e = (pre ++ "pwrkey" ++ post)%string).
Proof.
  cbv zeta. split; [reflexivity|].
  exact (proj1 (find_device_found_iff "pwrkey" example_devfs)).
Defined.

Lemma scan_entries_first name dfd before e after n sc l out :
  existsb (accepts name) before = false ->
  accepts name e = true ->
  d_open e = Some n ->
  scan_entries name dfd (before ++ e :: after) (mkDevfs sc (dfd :: l) out)
  = (Z.of_nat n,
     mkDevfs sc (Z.of_nat n :: l)
       (out ++ [FoundDevice ("/dev/input/" ++ d_name e) (reported_name e)])).
Proof.
  intros Hbefore Hacc Hopen. induction before as [|x before IH].
  - cbn [app scan_entries]. unfold accepts in Hacc.
    apply andb_true_iff in Hacc. destruct Hacc as [Hacc Hstr].
    apply andb_true_iff in Hacc. destruct Hacc as [Hpre _].
    rewrite Hpre, Hopen, Hstr. cbn [negb].
    unfold fd_closed, print, fd_opened. cbn [scans open_fds output remove_first].
    destruct (Z.eqb_spec (Z.of_nat n) dfd) as [->|_];
      [reflexivity|now rewrite Z.eqb_refl].
  - cbn [existsb] in Hbefore. apply orb_false_iff in Hbefore.
    destruct Hbefore as [Hx Hbefore]. specialize (IH Hbefore).
    cbn [app scan_entries]. unfold accepts in Hx.
    destruct (String.prefix "event" (d_name x)); cbn [negb]; [|exact IH].
    destruct (d_open x) as [m|]; [|exact IH].
    cbn in Hx. rewrite Hx. unfold fd_closed, fd_opened.
    cbn [scans output open_fds]. rewrite close_after_open. exact IH.
Qed.

(** X15: The first accepted entry in [readdir] order wins: its descriptor is
    returned and kept, one line reports it, and the entries listed after it
    are not looked at. Every candidate opened before it has been closed
    again, and so has the directory. *)
Theorem find_device_takes_first_match name d dfd before e after rest n :
  scans d = Some (dfd, before ++ e :: after) :: rest ->
  existsb (accepts name) before = false ->
  accepts name e = true ->
  d_open e = Some n ->
  find_device_by_name name d
  = (Z.of_nat n,
     mkDevfs rest (Z.of_nat n :: open_fds d)
       (output d ++ [FoundDevice ("/dev/input/" ++ d_name e) (reported_name e)])).
Proof.
  intros Hs Hbefore Hacc Hopen. unfold find_device_by_name. rewrite Hs.
  now apply scan_entries_first.
Qed.

Lemma find_device_takes_first_match_witness :
  let e1 := mkDirent "event1" (Some 5%nat) (Some "adc-keys"%string) in
  let e2 := mkDirent "event2" (Some 5%nat) (Some "gpio-keys-vol"%string) in
  let e3 := mkDirent "event3" (Some 6%nat) (Some "gpio-keys-lid"%string) in
  let d := mkDevfs [Some (3%nat, [e1; e2; e3])] [0; 1; 2] [] in
  find_device_by_name "gpio-keys" d
  = (5, mkDevfs [] [5; 0; 1; 2]
          [FoundDevice "/dev/input/event2" "gpio-keys-vol"]).
Proof.
  cbv zeta.
  apply (find_device_takes_first_match "gpio-keys"
           (mkDevfs [Some (3%nat,
                           [mkDirent "event1" (Some 5%nat) (Some "adc-keys"%string);
                            mkDirent "event2" (Some 5%nat) (Some "gpio-keys-vol"%string);
                            mkDirent "event3" (Some 6%nat) (Some "gpio-keys-lid"%string)])]
                    [0; 1; 2] [])
           3%nat
           [mkDirent "event1" (Some 5%nat) (Some "adc-keys"%string)]
           (mkDirent "event2" (Some 5%nat) (Some "gpio-keys-vol"%string))
           [mkDirent "event3" (Some 6%nat) (Some "gpio-keys-lid"%string)]
           [] 5%nat); reflexivity.
Defined.

End Matching.

Section Cleanup.

Lemma cleanup_slots_unused k (l : list Z) :
  map (fun '(i, fd) => if (i <? 0)%nat && (0 <=? fd) then -1 else fd)
      (combine (seq k (List.length l)) l) = l.
Proof.
  revert k. induction l as [|x l IH]; intros k; cbn; [reflexivity|].
  now rewrite IH.
Qed.

(** X16: After cleanup the monitor has no device and no button held, so a poll
    reads no descriptor and no clock, runs no command and returns false,
    also when the power button was held for long at the time of the cleanup;
    cleaning up twice is the same as once; the brightness level and the
    debounce anchor survive the cleanup. *)
Theorem poll_after_cleanup_is_inert s w :
  input_monitor_check_hotkeys (input_monitor_cleanup s) w
    = (false, input_monitor_cleanup s, w)
  /\ input_monitor_cleanup (input_monitor_cleanup s) = input_monitor_cleanup s
  /\ current_brightness (input_monitor_cleanup s) = current_brightness s
  /\ last_wake_time (input_monitor_cleanup s) = last_wake_time s.
Proof.
  split; [reflexivity|]. split; [|split; reflexivity].
  unfold input_monitor_cleanup at 1 3.
  cbn [num_devices input_fds set_devices set_power_button_held
       set_mode_button_held power_press_time last_wake_time
       power_button_held mode_button_held current_brightness].
  change (Z.to_nat 0) with 0%nat.
  rewrite cleanup_slots_unused. reflexivity.
Qed.

End Cleanup.


(** * Properties of the launcher menu *)

Section Menu.

Lemma handle_input_ok counts ev m :
  menu_ok counts m ->
  match handle_input counts ev m with
  | Exited => True
  | Handled m' launched =>
      menu_ok counts m'
      /\ match launched with
         | Some (sys, game) =>
             0 <= sys < MAX_SYSTEMS /\ 0 <= game < game_count counts sys
         | None => True
         end
  end.
Proof.
  unfold menu_ok, handle_input, MAX_SYSTEMS. intros [Hs [Hg Hz]].
  destruct (in_game_list m) eqn:Hin;
    [specialize (Hg eq_refl); clear Hz|specialize (Hz eq_refl); clear Hg].
  all: split_ifs; cbn [current_system current_game in_game_list];
    try exact Logic.I.
  all: repeat match goal with
         | H : (_ >? _) = _ |- _ => rewrite Z.gtb_ltb in H
         | H : (_ <? _) = true |- _ => apply Z.ltb_lt in H
         | H : (_ <? _) = false |- _ => apply Z.ltb_ge in H
         end.
  all: rewrite ?Hin; repeat split; intros; try discriminate; try lia.
Qed.

Lemma handle_inputs_ok counts evs m :
  menu_ok counts m ->
  let '(m', launches, _) := handle_inputs counts evs m in
  menu_ok counts m'
  /\ Forall (fun l => 0 <= fst l < MAX_SYSTEMS
                      /\ 0 <= snd l < game_count counts (fst l)) launches.
Proof.
  revert m. induction evs as [|ev evs IH]; intros m Hok; cbn [handle_inputs].
  - split; [exact Hok|constructor].
  - pose proof (handle_input_ok counts ev m Hok) as H.
    destruct (handle_input counts ev m) as [m1 launched|].
    + destruct H as [Hok1 Hl]. specialize (IH m1 Hok1).
      destruct (handle_inputs counts evs m1) as [[m2 launches] exited].
      destruct IH as [IH1 IH2]. split; [exact IH1|].
      destruct launched as [[sys game]|]; [|exact IH2].
      constructor; [exact Hl|exact IH2].
    + split; [exact Hok|constructor].
Qed.

(** X17: Whatever the controller sends and however many games each system has,
    the selection never leaves the tables: the selected system is one of the
    four, the selected game exists while the game list is shown and is 0
    otherwise, and every game ever launched is an existing game of an
    existing system. *)
Theorem menu_selection_stays_in_bounds counts evs :
  let '(m, launches, _) := handle_inputs counts evs initial_menu in
  0 <= current_system m < MAX_SYSTEMS
  /\ (in_game_list m = true ->
      0 <= current_game m < game_count counts (current_system m))
  /\ (in_game_list m = false -> current_game m = 0)
  /\ Forall (fun l => 0 <= fst l < MAX_SYSTEMS
                      /\ 0 <= snd l < game_count counts (fst l)) launches.
Proof.
  pose proof (handle_inputs_ok counts evs initial_menu) as H.
  assert (H0 : menu_ok counts initial_menu).
  { unfold menu_ok, MAX_SYSTEMS. cbn. repeat split; intros; try lia; try discriminate. }
  specialize (H H0).
  destruct (handle_inputs counts evs initial_menu) as [[m launches] exited].
  destruct H as [[H1 [H2 H3]] H4]. auto.
Qed.

Lemma game_rows_in fuel i y count selected names d :
  In d (game_rows fuel i y count selected names) ->
  exists k,
    0 <= k < Z.of_nat fuel /\ i + k < count /\ draw_y d = y + 30 * k
    /\ (draw_selected d = true -> i + k = selected).
Proof.
  revert i y. induction fuel as [|fuel IH]; intros i y; cbn [game_rows];
    [contradiction|].
  destruct (Z.ltb_spec i count) as [Hlt|_]; [|contradiction].
  intros Hin. apply in_app_or in Hin. destruct Hin as [Hin|[Hin|Hin]].
  - destruct (Z.eqb_spec i selected) as [Heq|_]; [|contradiction].
    destruct Hin as [<-|[]]. exists 0. cbn. repeat split; try lia.
  - subst d. exists 0. cbn. repeat split; try lia.
  - destruct (IH _ _ Hin) as [k [Hk [Hc [Hy Hs]]]].
    exists (k + 1). repeat split; try lia.
    intros H. specialize (Hs H). lia.
Qed.

Lemma game_rows_selected fuel i y count selected names :
  i <= selected < i + Z.of_nat fuel ->
  selected < count ->
  In (mkDraw 80 (y + 30 * (selected - i)) ">" true)
     (game_rows fuel i y count selected names)
  /\ In (mkDraw 110 (y + 30 * (selected - i))
                (nth (Z.to_nat selected) names ""%string) true)
        (game_rows fuel i y count selected names).
Proof.
  revert i y. induction fuel as [|fuel IH]; intros i y Hr Hc; [lia|].
  cbn [game_rows]. destruct (Z.ltb_spec i count); [|lia].
  destruct (Z.eqb_spec i selected) as [->|Hne].
  - replace (y + 30 * (selected - selected)) with y by lia.
    split; [now left|right; now left].
  - destruct (IH (i + 1) (y + 30) ltac:(lia) Hc) as [H1 H2].
    replace (y + 30 + 30 * (selected - (i + 1)))
      with (y + 30 * (selected - i)) in H1, H2 by lia.
    split; cbn [app]; right; assumption.
Qed.

Lemma game_rows_length fuel i y count selected names :
  (List.length (game_rows fuel i y count selected names) <= S fuel)%nat.
Proof.
  revert i y. induction fuel as [|fuel IH]; intros i y; cbn [game_rows];
    [cbn; lia|].
  destruct (i <? count); [|cbn; lia].
  destruct (Z.eqb_spec i selected) as [->|Hne].
  - (* the marker can only be drawn once: the rows that follow have other
       indices *)
    cbn [app List.length].
    assert (H : forall f j y', selected < j ->
              (List.length (game_rows f j y' count selected names) <= f)%nat).
    { induction f as [|f IHf]; intros j y' Hj; cbn [game_rows]; [cbn; lia|].
      destruct (j <? count); [|cbn; lia].
      destruct (Z.eqb_spec j selected); [lia|].
      cbn [app List.length]. specialize (IHf (j + 1) (y' + 30) ltac:(lia)). lia. }
    specialize (H fuel (selected + 1) (y + 30) ltac:(lia)). lia.
  - cbn [app List.length]. specialize (IH (i + 1) (y + 30)). lia.
Qed.

(** X18: The game list always shows the selected game: for a selection inside
    the list, the page drawn contains the row of the selected game,
    highlighted and with the marker in front of it, at the height of its
    position on the page; no other row is highlighted; the page has at most
    ten rows, all between the title and the instructions; and the page
    indicator, when there is one, shows a page number between 1 and the
    number of pages. *)
Theorem selected_game_is_on_the_page count selected names :
  0 <= selected < count ->
  let rows := render_game_rows count selected names in
  let y := 80 + 30 * Z.rem selected 10 in
  In (mkDraw 80 y ">" true) rows
  /\ In (mkDraw 110 y (nth (Z.to_nat selected) names ""%string) true) rows
  /\ (forall d, In d rows ->
        80 <= draw_y d <= 350 /\ (draw_selected d = true -> draw_y d = y))
  /\ (List.length rows <= 11)%nat
  /\ match page_indicator count selected with
     | Some (current, total) => 10 < count /\ 1 <= current <= total
     | None => count <= 10
     end.
Proof.
  intros Hsel. cbv zeta. unfold render_game_rows, page_start, page_indicator.
  pose proof (Z.quot_rem' selected 10) as Hqr.
  pose proof (Z.rem_bound_pos selected 10 ltac:(lia) ltac:(lia)) as Hr.
  assert (Hoff : selected - Z.quot selected 10 * 10 = Z.rem selected 10) by lia.
  destruct (game_rows_selected 10 (Z.quot selected 10 * 10) 80 count selected names
              ltac:(lia) ltac:(lia)) as [H1 H2].
  rewrite Hoff in H1, H2.
  split; [exact H1|]. split; [exact H2|]. split; [|split].
  - intros d Hin. apply game_rows_in in Hin.
    destruct Hin as [k [Hk [Hc [Hy Hs]]]]. split; [lia|].
    intros Ht. specialize (Hs Ht). lia.
  - apply game_rows_length.
  - destruct (Z.gtb_spec count 10); [|assumption].
    pose proof (Z.quot_rem' (count + 10 - 1) 10) as Hqc.
    pose proof (Z.rem_bound_pos (count + 10 - 1) 10 ltac:(lia) ltac:(lia)) as Hrc.
    split; [assumption|]. split; lia.
Qed.

Lemma selected_game_is_on_the_page_witness :
  let names := ["a"; "b"; "c"; "d"; "e"; "f"; "g"; "h"; "i"; "j"; "k"; "l"]%string in
  0 <= 11 < 12
  /\ render_game_rows 12 11 names
     = [mkDraw 110 80 "k" false; mkDraw 80 110 ">" true; mkDraw 110 110 "l" true]
  /\ page_indicator 12 11 = Some (2, 2)
  /\ In (mkDraw 80 (80 + 30 * Z.rem 11 10) ">" true) (render_game_rows 12 11 names).
Proof.
  cbv zeta. split; [lia|]. split; [reflexivity|]. split; [reflexivity|].
  apply (selected_game_is_on_the_page 12 11
           ["a"; "b"; "c"; "d"; "e"; "f"; "g"; "h"; "i"; "j"; "k"; "l"]%string).
  lia.
Defined.

End Menu.


Section Extensions.

Lemma tolower_code a :
  nat_of_ascii (tolower a) = 0%nat -> a = "000"%char.
Proof.
  unfold tolower. intros H.
  destruct ((65 <=? nat_of_ascii a)%nat && (nat_of_ascii a <=? 90)%nat) eqn:E.
  - apply andb_true_iff in E. destruct E as [E1 E2].
    apply Nat.leb_le in E1. apply Nat.leb_le in E2.
    rewrite nat_ascii_embedding in H by lia. lia.
  - rewrite <- (ascii_nat_embedding a), H. reflexivity.
Qed.

Lemma strcasecmp_zero a b :
  absent "000" a = true -> absent "000" b = true ->
  (strcasecmp a b = 0 <-> lowered a = lowered b).
Proof.
  revert b. induction a as [|ca a IH]; intros [|cb b] Ha Hb;
    cbn [strcasecmp lowered absent] in *.
  - tauto.
  - apply andb_true_iff in Hb. destruct Hb as [Hb _].
    split; [|discriminate]. intros H.
    assert (Hn : nat_of_ascii (tolower cb) = 0%nat) by lia.
    apply tolower_code in Hn. subst cb. discriminate.
  - apply andb_true_iff in Ha. destruct Ha as [Ha _].
    split; [|discriminate]. intros H.
    assert (Hn : nat_of_ascii (tolower ca) = 0%nat) by lia.
    apply tolower_code in Hn. subst ca. discriminate.
  - apply andb_true_iff in Ha. destruct Ha as [_ Ha].
    apply andb_true_iff in Hb. destruct Hb as [_ Hb].
    destruct (Ascii.eqb_spec (tolower ca) (tolower cb)) as [Heq|Hne].
    + rewrite (IH b Ha Hb), Heq. split; [now intros ->|].
      intros H. now inversion H.
    + split.
      * intros H. exfalso. apply Hne.
        rewrite <- (ascii_nat_embedding (tolower ca)),
                <- (ascii_nat_embedding (tolower cb)).
        f_equal. lia.
      * intros H. inversion H. contradiction.
Qed.

Lemma strrchr_none s c : strrchr s c = None <-> absent c s = true.
Proof.
  induction s as [|a s IH]; cbn [strrchr absent]; [tauto|].
  destruct (strrchr s c) as [r|].
  - split; [discriminate|]. intros H. apply andb_true_iff in H.
    destruct H as [_ H]. apply IH in H. discriminate.
  - destruct (Ascii.eqb a c); cbn.
    + split; discriminate.
    + split; intros _; [now apply IH|reflexivity].
Qed.

Lemma strrchr_some s c r :
  strrchr s c = Some r <->
  exists base rest,
    s = (base ++ String c rest)%string /\ r = String c rest
    /\ absent c rest = true.
Proof.
  revert r. induction s as [|a s IH]; intros r; cbn [strrchr].
  - split; [discriminate|]. intros [base [rest [H _]]].
    destruct base; discriminate.
  - destruct (strrchr s c) as [r'|] eqn:E.
    + split.
      * intros H. inversion H; subst r'.
        destruct (proj1 (IH r) eq_refl) as [base [rest [Hs [Hr Ha]]]].
        exists (String a base), rest. cbn. rewrite Hs. auto.
      * intros [base [rest [Hs [Hr Ha]]]]. destruct base as [|b base]; cbn in Hs.
        -- inversion Hs; subst. apply strrchr_none in Ha. congruence.
        -- inversion Hs; subst.
           assert (H' : Some r' = Some (String c rest))
             by (apply IH; exists base, rest; auto).
           exact H'.
    + apply strrchr_none in E. destruct (Ascii.eqb_spec a c) as [->|Hne].
      * split.
        -- intros H. inversion H; subst. exists EmptyString, s. auto.
        -- intros [base [rest [Hs [Hr Ha]]]]. destruct base as [|b base]; cbn in Hs.
           ++ inversion Hs; subst. reflexivity.
           ++ inversion Hs; subst. exfalso.
              clear - E. induction base as [|x base IHb]; cbn in E.
              ** rewrite Ascii.eqb_refl in E. discriminate.
              ** apply andb_true_iff in E. destruct E as [_ E]. auto.
      * split; [discriminate|].
        intros [base [rest [Hs [Hr Ha]]]]. destruct base as [|b base]; cbn in Hs.
        -- inversion Hs; subst. contradiction.
        -- inversion Hs; subst. exfalso.
           clear - E. induction base as [|x base IHb]; cbn in E.
           ++ rewrite Ascii.eqb_refl in E. discriminate.
           ++ apply andb_true_iff in E. destruct E as [_ E]. auto.
Qed.

Lemma absent_app c a b :
  absent c (a ++ b) = absent c a && absent c b.
Proof.
  induction a as [|x a IH]; cbn; [reflexivity|].
  now rewrite IH, andb_assoc.
Qed.

(** X19: A file counts as a game of a system exactly when what follows its last
    dot, the dot included, equals one of the extensions of the system up to
    the case of letters: a name without a dot never counts, and only the last
    extension of a name is looked at. Names and extensions are C strings,
    without an embedded terminator. *)
Theorem has_extension_iff filename extensions :
  absent "000" filename = true ->
  Forall (fun e => absent "000" e = true) extensions ->
  (has_extension filename extensions = true <->
   exists base rest e,
     filename = (base ++ String "." rest)%string
     /\ absent "." rest = true
     /\ In e extensions
     /\ lowered e = lowered (String "." rest)).
Proof.
  intros Hf He. unfold has_extension.
  destruct (strrchr filename ".") as [dot|] eqn:E.
  - apply strrchr_some in E. destruct E as [base [rest [Hs [Hd Ha]]]].
    assert (Hdot : absent "000" dot = true).
    { subst. rewrite absent_app in Hf. apply andb_true_iff in Hf. apply Hf. }
    rewrite existsb_exists. split.
    + intros [e [Hin Hz]]. apply Z.eqb_eq in Hz.
      rewrite Forall_forall in He.
      apply (strcasecmp_zero dot e Hdot (He e Hin)) in Hz.
      exists base, rest, e. subst dot. auto.
    + intros [base' [rest' [e [Hs' [Ha' [Hin Hl]]]]]].
      exists e. split; [exact Hin|]. apply Z.eqb_eq.
      rewrite Forall_forall in He.
      apply (strcasecmp_zero dot e Hdot (He e Hin)).
      assert (Hsame : strrchr filename "." = Some (String "." rest')).
      { apply strrchr_some. exists base', rest'. auto. }
      assert (Hsame' : strrchr filename "." = Some dot).
      { apply strrchr_some. exists base, rest. auto. }
      rewrite Hsame in Hsame'. inversion Hsame'; subst. auto.
  - split; [discriminate|].
    intros [base [rest [e [Hs [Ha _]]]]].
    assert (Hsome : strrchr filename "." = Some (String "." rest)).
    { apply strrchr_some. exists base, rest. auto. }
    congruence.
Qed.

Lemma has_extension_iff_witness :
  has_extension "Super Mario 64 (v1.1).Z64" n64_exts = true
  /\ has_extension "zelda.z64.bak" n64_exts = false
  /\ has_extension "README" n64_exts = false
  /\ exists base rest e,
       "Super Mario 64 (v1.1).Z64"%string = (base ++ String "." rest)%string
       /\ absent "." rest = true
       /\ In e n64_exts
       /\ lowered e = lowered (String "." rest).
Proof.
  split; [reflexivity|]. split; [reflexivity|]. split; [reflexivity|].
  apply (has_extension_iff "Super Mario 64 (v1.1).Z64" n64_exts).
  - reflexivity.
  - repeat constructor.
  - reflexivity.
Defined.

End Extensions.
